(** * udkm1Dsim: numerical phonon dynamics of a one-dimensional layer stack

    A shallow embedding of [udkm1Dsim/phononNum.py] (class [PhononNum]) and
    of the numpy operations it is written with.

    Numbers.  The program computes with IEEE doubles.  Here a number is an
    exact rational ([Qc], canonical fractions with Leibniz equality), so the
    results below are statements about the arithmetic the program performs,
    not about rounding.  Division by zero, which numpy answers with inf or
    nan, is [x / 0 = 0] in [Qc]; no statement below relies on it.  The one
    quotient whose value the program tests, [n = (t - last_t)/dt] of
    [ode_func], is modelled with its division by zero, see [true_divide].

    Arrays.  A one-dimensional numpy array is a [list Qc].  A two-dimensional
    array is a [mat]: its rows together with its number of columns, so that
    the shape of an array without rows is not lost.  Operations that numpy
    answers with an exception (shapes that do not broadcast, an index out of
    range) return [None]. *)

From Stdlib Require Import QArith Qcanon.
From stdpp Require Import base option list gmap strings numbers.

Local Open Scope Qc_scope.

(** Integer literals as numbers, for concrete arrays. *)
Definition vec (l : list Z) : list Qc := Qc_of_Z <$> l.

(* ===================================================================== *)
(** * numpy *)
(* ===================================================================== *)

Module Np.

Record mat := Mat { ncols : nat; rows : list (list Qc) }.

Definition nrows (m : mat) : nat := length (rows m).

#[global] Instance mat_eq_dec : EqDecision mat.
Proof. solve_decision. Defined.

(** Every row has the declared width. *)
Definition wf_mat (m : mat) : Prop :=
  Forall (λ r, length r = ncols m) (rows m).

Definition matZ (c : nat) (ll : list (list Z)) : mat := Mat c (vec <$> ll).

(** An array argument whose number of axes the callee inspects. *)
Inductive ndarray :=
| A1 (v : list Qc)
| A2 (m : mat).

#[global] Instance ndarray_eq_dec : EqDecision ndarray.
Proof. solve_decision. Defined.

(** [np.shape(a)] *)
Definition shape (a : ndarray) : list nat :=
  match a with
  | A1 v => [length v]
  | A2 m => [nrows m; ncols m]
  end.

(** [np.size(a, axis)]: [a.shape[axis]], IndexError beyond the last axis. *)
Definition size (a : ndarray) (axis : nat) : option nat := shape a !! axis.

(** The extent two axes broadcast to: equal extents, or one of them 1. *)
Definition bshape (m n : nat) : option nat :=
  if decide (m = n) then Some m
  else if decide (m = 1%nat) then Some n
  else if decide (n = 1%nat) then Some m
  else None.

(** An axis of extent 1 repeated [n] times; any other axis as it is. *)
Definition stretch {A} (n : nat) (l : list A) : list A :=
  match l with
  | [x] => replicate n x
  | _ => l
  end.

(** Elementwise binary operation on one-dimensional arrays. *)
Definition broadcast {A B C} (f : A → B → C) (a : list A) (b : list B)
  : option (list C) :=
  n ← bshape (length a) (length b);
  Some (zip_with f (stretch n a) (stretch n b)).

(** Elementwise binary operation on two-dimensional arrays. *)
Definition broadcast2 (f : Qc → Qc → Qc) (a b : mat) : option mat :=
  r ← bshape (nrows a) (nrows b);
  c ← bshape (ncols a) (ncols b);
  Some (Mat c (zip_with (λ ra rb, zip_with f (stretch c ra) (stretch c rb))
                        (stretch r (rows a)) (stretch r (rows b)))).

(** The value of an assignment [target[...] = val] to [n] cells: [val]
    has [n] entries, or one entry that is repeated. *)
Definition assign_to (n : nat) (val : list Qc) : option (list Qc) :=
  if decide (length val = n) then Some val
  else if decide (length val = 1%nat) then Some (stretch n val)
  else None.

(** [np.zeros([n])], [np.zeros([r, c])], [np.zeros_like(m)] *)
Definition zeros (n : nat) : list Qc := replicate n 0.
Definition zeros2 (r c : nat) : mat := Mat c (replicate r (zeros c)).
Definition zeros_like (m : mat) : mat := zeros2 (nrows m) (ncols m).

(** [m[:, i] = val] *)
Definition set_col (i : nat) (val : list Qc) (m : mat) : option mat :=
  if decide (i < ncols m)%nat then
    vals ← assign_to (nrows m) val;
    Some (Mat (ncols m) (zip_with (λ row x, <[i:=x]> row) (rows m) vals))
  else None.

(** [m[t, i]] *)
Definition entry (m : mat) (t i : nat) : option Qc :=
  row ← rows m !! t; row !! i.

(** [m[:, i]] *)
Definition col (i : nat) (m : mat) : option (list Qc) :=
  if decide (i < ncols m)%nat then mapM (λ row, row !! i) (rows m)
  else None.

(** [m[0:-1, :]] and [v[:-1]] *)
Definition but_last {A} (l : list A) : list A := take (length l - 1) l.

(** [-m] *)
Definition neg (m : mat) : mat :=
  Mat (ncols m) ((λ r : list Qc, Qcopp <$> r) <$> rows m).

(** [np.vstack((a, b))] *)
Definition vstack (a b : mat) : option mat :=
  if decide (ncols a = ncols b) then Some (Mat (ncols a) (rows a ++ rows b))
  else None.

Definition Qcsum (l : list Qc) : Qc := foldr Qcplus 0 l.

(** [abs(x)] *)
Definition absolute (x : Qc) : Qc := if decide (x < 0) then - x else x.

(** [np.sum(m, 1)] *)
Definition sum1 (m : mat) : list Qc := Qcsum <$> rows m.

(** One difference step [a[1:] - a[:-1]] of a one-dimensional array. *)
Fixpoint diff1 (a : list Qc) : list Qc :=
  match a with
  | x :: (y :: _) as a' => (y - x) :: diff1 a'
  | _ => []
  end.

(** [np.diff(a, n)]: [n] difference steps; [n = 0] returns [a] itself. *)
Definition diff (a : list Qc) (n : nat) : list Qc := Nat.iter n diff1 a.

(** [np.diff(m, 1, 1)]: one difference step along every row. *)
Definition diff_rows (m : mat) : mat :=
  Mat (ncols m - 1) (diff1 <$> rows m).

(** [m.T] *)
Definition transpose (m : mat) : mat :=
  Mat (nrows m)
      ((λ j, (λ r, default 0 (r !! j)) <$> rows m) <$> seq 0 (ncols m)).

(** [np.tile(v, [n, 1])] *)
Definition tile (v : list Qc) (n : nat) : mat :=
  Mat (length v) (replicate n v).

(** All entries in row-major order. *)
Definition ravel (a : ndarray) : list Qc :=
  match a with
  | A1 v => v
  | A2 m => concat (rows m)
  end.

(** [target[a:b] = val] on a one-dimensional array *)
Definition set_slice (a b : nat) (val target : list Qc) : option (list Qc) :=
  let b := b `min` length target in
  vals ← assign_to (b - a) val;
  Some (take a target ++ vals ++ drop (a `max` b) target).

(** [np.reshape(a, [r, c])] *)
Definition reshape (a : ndarray) (r c : nat) : option mat :=
  let flat := ravel a in
  if decide (length flat = r * c)%nat then
    Some (Mat c ((λ i, take c (drop (i * c) flat)) <$> seq 0 r))
  else None.

End Np.

(* ===================================================================== *)
(** * PhononNum: the force model *)
(* ===================================================================== *)

Module PhononNum.
Import Np.

(** The loop [for i in range(spring_order)] of [calc_force_from_spring]:
    column [i] of [temp1] and [temp2] becomes the power [i+1] of the
    displacement differences. *)
Fixpoint power_columns (range : list nat) (d_X1 d_X2 : list Qc)
    (temp1 temp2 : mat) : option (mat * mat) :=
  match range with
  | [] => Some (temp1, temp2)
  | i :: range' =>
      temp1' ← set_col i ((λ d, d ^ (i + 1)) <$> d_X1) temp1;
      temp2' ← set_col i ((λ d, d ^ (i + 1)) <$> d_X2) temp2;
      power_columns range' d_X1 d_X2 temp1' temp2'
  end.

Definition calc_force_from_spring (d_X1 d_X2 : list Qc)
    (spring_consts : ndarray) : option (list Qc) :=
  (* try: np.size(spring_consts, 1)  except IndexError: 1 *)
  let spring_order := default 1%nat (size spring_consts 1) in
  size0 ← size spring_consts 0;
  spring_consts ← reshape spring_consts size0 spring_order;
  let upper := neg (Mat (ncols spring_consts) (but_last (rows spring_consts))) in
  coeff1 ← vstack upper (zeros2 1 spring_order);
  coeff2 ← vstack (zeros2 1 spring_order) upper;
  let temp1 := zeros2 (length d_X1) spring_order in
  let temp2 := zeros2 (length d_X1) spring_order in
  '(temp1, temp2) ← power_columns (seq 0 spring_order) d_X1 d_X2 temp1 temp2;
  p2 ← broadcast2 Qcmult coeff2 temp2;
  p1 ← broadcast2 Qcmult coeff1 temp1;
  broadcast Qcminus (sum1 p2) (sum1 p1).

(** The loop [for i in range(M)] of [calc_force_from_heat]. *)
Fixpoint heat_columns (range : list nat) (sticks : mat)
    (spring_consts : ndarray) (L : nat) (F : mat) : option mat :=
  match range with
  | [] => Some F
  | i :: range' =>
      row ← rows sticks !! i;
      f ← calc_force_from_spring (take (L - 1) row ++ [0])
                                 (0 :: take (L - 1) row) spring_consts;
      F' ← set_col i (Qcopp <$> f) F;
      heat_columns range' sticks spring_consts L F'
  end.

Definition calc_force_from_heat (sticks : mat) (spring_consts : ndarray)
  : option mat :=
  let M := nrows sticks in
  let L := ncols sticks in
  let F := zeros2 L M in
  heat_columns (seq 0 M) sticks spring_consts L F.

Definition calc_force_from_damping (v damping masses : list Qc)
  : option (list Qc) :=
  md ← broadcast Qcmult masses damping;
  broadcast Qcmult md (diff v 0).

(* ------------------------------------------------------------------- *)
(** ** The right-hand side of the equations of motion *)

(** A [tqdm] progress bar, as far as [calc_strain_map] and [ode_func] use
    it: how often [update(1)] was called, and the number that the last
    [set_description] shows (the time in ps), if there was one. *)
Record tqdm := Tqdm { updates : nat; description : option Qc }.

#[global] Instance tqdm_eq_dec : EqDecision tqdm.
Proof. solve_decision. Defined.

(** The rational numbers do not show whether [t] and the two entries of
    [state] are Python floats or numpy scalars, and the division by zero
    in [n = (t - last_t)/dt] depends on it: between Python floats it raises
    [ZeroDivisionError]; as soon as one of the three numbers is a numpy
    [float64] it returns [inf], [-inf] or [nan] instead (with a warning). *)
Inductive float_kind := python_float | numpy_float64.

#[global] Instance float_kind_eq_dec : EqDecision float_kind.
Proof. solve_decision. Defined.

(** The quotient of two floats, as the comparisons [n >= 1] and [n < 0]
    see it. *)
Inductive quotient :=
| finite (q : Qc)
| plus_inf
| minus_inf
| nan.

(** [a / b]; [None] is the [ZeroDivisionError].  (A divisor that is zero is
    taken as [+0.0].) *)
Definition true_divide (floats : float_kind) (a b : Qc) : option quotient :=
  if decide (b = 0) then
    match floats with
    | python_float => None
    | numpy_float64 =>
        Some (if decide (0 < a) then plus_inf
              else if decide (a < 0) then minus_inf
              else nan)
    end
  else Some (finite (a / b)).

(** [n >= 1] and [n < 0]; every comparison with [nan] is false. *)
Definition ge_one (n : quotient) : bool :=
  match n with
  | finite q => bool_decide (1 ≤ q)
  | plus_inf => true
  | minus_inf | nan => false
  end.
Definition lt_zero (n : quotient) : bool :=
  match n with
  | finite q => bool_decide (q < 0)
  | minus_inf => true
  | plus_inf | nan => false
  end.

(** [1e12] *)
Definition ps : Qc := Qc_of_Z (10 ^ 12).

(** The branch [if pbar is not None] of [ode_func]: the progress bar and
    the list [state] as the branch leaves them.  Without a progress bar
    [state] is not looked at.  With one, [last_t, dt = state] raises for
    [state = None] ([TypeError]) and for a list that has not exactly two
    entries ([ValueError]), and the division may raise. *)
Definition progress_step (floats : float_kind) (t : Qc) (pbar : option tqdm)
    (state : option (list Qc)) : option (option tqdm * option (list Qc)) :=
  match pbar with
  | None => Some (None, state)
  | Some bar =>
      match state with
      | Some [last_t; dt] =>
          n ← true_divide floats (t - last_t) dt;
          if ge_one n then
            Some (Some (Tqdm (Datatypes.S (updates bar)) (Some (t * ps))),
                  Some [t; dt])
          else if lt_zero n then Some (Some bar, Some [t; dt])
          else Some (Some bar, Some [last_t; dt])
      | _ => None
      end
  end.

Section ode.
(** [helpers.finderb], which is not among the sources: the index of the
    heat-force sample in force at time [t]. *)
Variable finderb : Qc → list Qc → nat.
(** The kind of the numbers [t] and [state], see [float_kind]. *)
Variable floats : float_kind.

(** [ode_func]: the derivative [X_prime], with the progress bar and the
    list [state], which the call changes in place, as it leaves them. *)
Definition ode_func (t : Qc) (X delays : list Qc) (force_from_heat : mat)
    (damping : list Qc) (spring_consts : ndarray) (masses : list Qc)
    (L : nat) (pbar : option tqdm) (state : option (list Qc))
  : option (list Qc * (option tqdm * option (list Qc))) :=
  shown ← progress_step floats t pbar state;
  let x := take L X in
  let v := drop L X in
  let X_prime := zeros (2 * L) in
  f_damp ← calc_force_from_damping v damping masses;
  f_spring ← calc_force_from_spring (diff x 1 ++ [0]) (0 :: diff x 1)
                                    spring_consts;
  f_heat ← col (finderb t delays) force_from_heat;
  f ← broadcast Qcplus f_damp f_spring;
  f ← broadcast Qcplus f f_heat;
  acc ← broadcast Qcdiv f masses;
  X_prime ← set_slice L (2 * L) acc X_prime;
  X_prime ← set_slice 0 L v X_prime;
  Some (X_prime, shown).
End ode.

(* ------------------------------------------------------------------- *)
(** ** The strain map and its cache *)

(** What the simulation reads from the sample structure [S]:
    [get_number_of_layers()] and [get_layer_property_vector(name)] for
    the names ['_thickness'], ['_mass_unit_area'], ['spring_const'] and
    ['_phonon_damping'].  The last branch of [get_layer_property_vector]
    returns a one-dimensional array when every layer has a single spring
    constant and a two-dimensional one otherwise. *)
Record Structure := {
  get_number_of_layers : nat;
  thickness : list Qc;
  mass_unit_area : list Qc;
  spring_const : ndarray;
  phonon_damping : list Qc
}.

(** [self.ode_options] as set by [__init__]; [max_step = None] stands for
    [np.inf]. *)
Record ode_options := {
  method : string;
  first_step : option Qc;
  max_step : option Qc;
  rtol : Qc;
  atol : Qc
}.

Definition default_ode_options : ode_options :=
  {| method := "RK23"; first_step := None; max_step := None;
     rtol := Q2Qc (1 # 1000); atol := Q2Qc (1 # 1000000) |}.

(** The attributes of a [PhononNum] object that its methods read. *)
Record simulation := {
  S : Structure;
  cache_dir : string;
  force_recalc : bool;
  only_heat : bool;
  progress_bar : bool;
  options : ode_options
}.

(** A file of the cache directory: a saved array, or bytes that
    [np.load] cannot read. *)
Inductive file :=
| Npy (data : mat)
| Unreadable.

#[global] Instance file_eq_dec : EqDecision file.
Proof. solve_decision. Defined.

(** One call of the ODE integrator: the time span and the initial state. *)
Record ode_run := OdeRun { t_span : Qc * Qc; y0 : list Qc }.

#[global] Instance ode_run_eq_dec : EqDecision ode_run.
Proof. solve_decision. Defined.

(** Everything outside the object that the methods read or change. *)
Record world := World {
  files : gmap string file;
  messages : list string;
  ode_runs : list ode_run
}.

#[global] Instance world_eq_dec : EqDecision world.
Proof. solve_decision. Defined.

Inductive exn :=
| ArrayError      (* numpy: shapes do not broadcast, index out of range *)
| InputError      (* check_temp_maps, calc_sticks_from_temp_map *)
| SolverError     (* raised inside solve_ivp *)
| LoadError.      (* np.load on a file it cannot read *)

#[global] Instance exn_eq_dec : EqDecision exn.
Proof. solve_decision. Defined.

Inductive outcome (A : Type) :=
| Ok (a : A)
| Raise (e : exn).
Arguments Ok {A} a.
Arguments Raise {A} e.

#[global] Instance outcome_eq_dec `{EqDecision A} : EqDecision (outcome A).
Proof. solve_decision. Defined.

(** A method: it starts in a world and ends, with a value or with an
    exception, in a world. *)
Definition M (A : Type) : Type := world → outcome A * world.

Definition ret {A} (a : A) : M A := λ w, (Ok a, w).
Definition raise {A} (e : exn) : M A := λ w, (Raise e, w).
Definition bind {A B} (m : M A) (k : A → M B) : M B :=
  λ w, match m w with
       | (Ok a, w') => k a w'
       | (Raise e, w') => (Raise e, w')
       end.
Definition lift {A} (e : exn) (o : option A) : M A :=
  match o with Some a => ret a | None => raise e end.

#[global] Instance M_ret : MRet M := @ret.
#[global] Instance M_bind : MBind M := λ A B k m, bind m k.

(** The characters ["\n\t"] of the message of a cache hit. *)
Definition newline_tab : string :=
  String (Ascii.ascii_of_nat 10) (String (Ascii.ascii_of_nat 9) EmptyString).

(** [os.path.exists] *)
Definition path_exists (name : string) : M bool :=
  λ w, (Ok (bool_decide (is_Some (files w !! name))), w).

(** [np.load] *)
Definition np_load (name : string) : M mat :=
  λ w, match files w !! name with
       | Some (Npy data) => (Ok data, w)
       | _ => (Raise LoadError, w)
       end.

(** [self.disp_message], of the base class that is not among the sources:
    the messages are kept in the order they are issued. *)
Definition disp_message (msg : string) : M unit :=
  λ w, (Ok (), World (files w) (messages w ++ [msg]) (ode_runs w)).

(** Modelled from the spec: [self.save] belongs to the base class, which is
    not among the sources.  Section 4.4, step 4: "Persist the newly
    computed strain map under the cache key"; the artifact holds the array
    and a later load returns it. *)
Definition save (full_filename : string) (data : list mat) (var_name : string)
  : M unit :=
  λ w, match data with
       | [strain_map] =>
           (Ok (), World (<[full_filename := Npy strain_map]> (files w))
                         (messages w ++ [var_name +:+ " saved to file"])
                         (ode_runs w))
       | _ => (Raise ArrayError, w)
       end.

(** The collaborators of [calc_strain_map] and [get_strain_map] that are
    not among the sources: methods of the base class, [scipy]'s
    integrator and [os.path]. *)
Class Collaborators := {
  TempMap : Type;
  SubSticks : Type;
  finderb : Qc → list Qc → nat;
  get_hash : simulation → list Qc → TempMap → TempMap → string;
  abspath_join : string → string → string;
  check_temp_maps :
    TempMap → TempMap → list Qc → option (TempMap * TempMap);
  calc_sticks_from_temp_map :
    simulation → TempMap → TempMap → option (mat * SubSticks);
  (** [solve_ivp(fun, t_span, y0, t_eval=..., **options)]: the array
      [sol.y], one row per state entry and one column per time. *)
  solve_ivp :
    (Qc → list Qc → option (list Qc)) → Qc * Qc → list Qc → list Qc →
    ode_options → option mat
}.

Section strain_map.
Context `{Collaborators}.

(** The call of [solve_ivp], recorded in the world. *)
Definition run_solver (f : Qc → list Qc → option (list Qc))
    (span : Qc * Qc) (x0 t_eval : list Qc) (o : ode_options) : M mat :=
  λ w, let w' := World (files w) (messages w)
                       (ode_runs w ++ [OdeRun span x0]) in
       match solve_ivp f span x0 t_eval o with
       | Some y => (Ok y, w')
       | None => (Raise SolverError, w')
       end.

(** [delays] is a numpy array of plain numbers, in seconds: the [try]
    around [delays.to('s').magnitude] leaves such an array as it is, and
    [delays[0]], which goes into [state], is a numpy scalar.  The elapsed
    time that the last message reports is not rendered; no result depends
    on it. *)
Definition calc_strain_map (self : simulation) (delays : list Qc)
    (temp_map delta_temp_map : TempMap) : M (mat * SubSticks * mat) :=
  let L := get_number_of_layers (S self) in
  let thicknesses := thickness (S self) in
  let x0 := zeros (2 * L) in
  '(temp_map, delta_temp_map) ←
    lift InputError (check_temp_maps temp_map delta_temp_map delays);
  disp_message "Calculating linear thermal expansion ...";;
  '(sticks, sticks_sub_systems) ←
    lift InputError
         (calc_sticks_from_temp_map self temp_map delta_temp_map);
  '(strain_map, velocities) ←
    (if only_heat self then
       strain_map ←
         lift ArrayError
              (broadcast2 Qcdiv sticks (tile thicknesses (nrows sticks)));
       let velocities := zeros_like strain_map in
       ret (strain_map, velocities)
     else
       disp_message "Calculating coherent dynamics with ODE solver ...";;
       let L := get_number_of_layers (S self) in
       let masses := mass_unit_area (S self) in
       let thicknesses := thickness (S self) in
       let spring_consts := spring_const (S self) in
       let damping := phonon_damping (S self) in
       force_from_heat ←
         lift ArrayError (calc_force_from_heat sticks spring_consts);
       first ← lift ArrayError (delays !! 0%nat);
       final ← lift ArrayError (delays !! (length delays - 1)%nat);
       let pbar :=
         if progress_bar self then Some (Tqdm 0 (Some (first * ps)))
         else None in
       let state :=
         if progress_bar self
         then Some [first; absolute (final - first) / Qc_of_Z 100]
         else None in
       y ← run_solver
              (λ t X, fst <$> ode_func finderb numpy_float64 t X delays
                                       force_from_heat damping spring_consts
                                       masses L pbar state)
              (first, final) x0 delays (options self);
       let temp := diff_rows (transpose (Mat (ncols y) (take L (rows y)))) in
       strain_map ←
         lift ArrayError
              (broadcast2 Qcdiv temp
                          (tile (but_last thicknesses) (nrows temp)));
       let velocities := transpose (Mat (ncols y) (drop L (rows y))) in
       ret (strain_map, velocities));
  disp_message "Elapsed time for _strain_map_";;
  ret (strain_map, sticks_sub_systems, velocities).

Definition get_strain_map (self : simulation) (delays : list Qc)
    (temp_map delta_temp_map : TempMap) : M mat :=
  let filename :=
    "strain_map_num_" +:+ get_hash self delays temp_map delta_temp_map
                      +:+ ".npy" in
  let full_filename := abspath_join (cache_dir self) filename in
  found ← path_exists full_filename;
  if found && negb (force_recalc self) then
    strain_map ← np_load full_filename;
    disp_message ("_strain_map_ loaded from file:" +:+ newline_tab
                  +:+ filename);;
    ret strain_map
  else
    '(strain_map, sticks_sub_systems, velocities) ←
      calc_strain_map self delays temp_map delta_temp_map;
    save full_filename [strain_map] "_strain_map_num_";;
    ret strain_map.
End strain_map.

End PhononNum.

Import Np PhononNum.

(* ===================================================================== *)
(** * The specification's formulas *)
(* ===================================================================== *)

(** The polynomial [k^1 d + k^2 d^2 + ... + k^M d^M] of one row
    [k^1 ... k^M] of spring constants. *)
Definition powers (M : nat) (d : Qc) : list Qc := (λ j, d ^ (j + 1)) <$> seq 0 M.
Definition poly (ks : list Qc) (d : Qc) : Qc :=
  Qcsum (zip_with Qcmult ks (powers (length ks) d)).

(** Row [i] of the spring constants, whichever way they are given. *)
Definition consts_rows (k : ndarray) : list (list Qc) :=
  match k with
  | A1 v => (λ x, [x]) <$> v
  | A2 m => rows m
  end.
Definition consts_row (k : ndarray) (i : nat) : list Qc :=
  default [] (consts_rows k !! i).

(** Spring constants of [L] layers and order [M]. *)
Definition layer_aligned (L M : nat) (k : ndarray) : Prop :=
  match k with
  | A1 v => length v = L ∧ M = 1%nat
  | A2 m => wf_mat m ∧ nrows m = L ∧ ncols m = M
  end.

(** An [L] by [T] array of zeros whose first columns have been assigned
    the vectors [cs], as the two loops over columns leave it on the way. *)
Definition filled (L T : nat) (cs : list (list Qc)) : mat :=
  Mat T ((λ i, ((λ c : list Qc, default 0 (c !! i)) <$> cs)
               ++ zeros (T - length cs)) <$> seq 0 L).

(** The columns that [calc_force_from_spring] assigns to [temp1], [temp2]. *)
Definition power_cols (d : list Qc) (n : nat) : list (list Qc) :=
  (λ i, (λ x, x ^ (i + 1)) <$> d) <$> seq 0 n.

(** What [calc_force_from_spring] computes, written out: row [i] of
    [coeff2] against the powers of [d_X2_i], minus row [i] of [coeff1]
    against the powers of [d_X1_i]. *)
Definition dot (M : nat) (c : list Qc) (d : Qc) : Qc :=
  Qcsum (zip_with Qcmult c (powers M d)).
Definition spring_closed (M : nat) (krows : list (list Qc))
    (d_X1 d_X2 : list Qc) : list Qc :=
  let upper := (λ r : list Qc, Qcopp <$> r) <$> but_last krows in
  zip_with Qcminus (zip_with (dot M) (zeros M :: upper) d_X2)
                   (zip_with (dot M) (upper ++ [zeros M]) d_X1).

(** The column that [calc_force_from_heat] assigns for one row of sticks. *)
Definition heat_col (k : ndarray) (L M : nat) (row : list Qc) : list Qc :=
  Qcopp <$> spring_closed M (consts_rows k)
                          (take (L - 1) row ++ [0]) (0 :: take (L - 1) row).

(** Two arrays of spring constants for the same layers that agree on every
    row but the last, and two arrays of sticks of the same shape that agree
    on every column but the last. *)
Definition same_but_last_row (k k' : ndarray) : Prop :=
  ∃ L M, layer_aligned L M k ∧ layer_aligned L M k'
         ∧ but_last (consts_rows k) = but_last (consts_rows k').
Definition same_but_last_col (s s' : mat) : Prop :=
  ncols s = ncols s'
  ∧ Forall2 (λ r r', take (ncols s - 1) r = take (ncols s - 1) r')
            (rows s) (rows s').

Module Spec.

(** Section 4.3: [leftDiff_i = x_i - x_{i-1}] and
    [rightDiff_i = x_i - x_{i+1}], zero where the neighbour is missing. *)
Definition leftDiff (x : list Qc) : list Qc :=
  imap (λ i xi, match i with
                | O => 0
                | Datatypes.S p => xi - default 0 (x !! p)
                end) x.
Definition rightDiff (x : list Qc) : list Qc :=
  imap (λ i xi, match x !! Datatypes.S i with
                | Some xj => xi - xj
                | None => 0
                end) x.

(** Section 4.1, [springForce]:
    [F_i = - Σ_j k_i^j leftDiff_i^j + Σ_j k_{i+1}^j rightDiff_i^j], without
    the left term for layer 0 and the right term for the last layer. *)
Definition springForce (leftDiff rightDiff : list Qc) (k : ndarray)
  : list Qc :=
  imap (λ i '(l, r),
          (match i with
           | O => 0
           | Datatypes.S _ => - poly (consts_row k i) l
           end)
          + (if decide (Datatypes.S i < length leftDiff)%nat
             then poly (consts_row k (Datatypes.S i)) r else 0))
       (zip leftDiff rightDiff).

(** Section 4.1, [dampingForce]:
    [F_i = mass_i * damping_i * (v_i - v_{i-1})] with [v_{-1} = 0]. *)
Definition dampingForce (v damping masses : list Qc) : list Qc :=
  zip_with Qcmult (zip_with Qcmult masses damping)
           (zip_with Qcminus v (0 :: v)).

(** Section 4.3, the state derivative as the specification words it: the
    velocities, then the spring force of [leftDiff] and [rightDiff] plus
    the damping force plus the sampled column of the heat force, divided
    by the masses. *)
Definition state_derivative (sample : nat) (X : list Qc)
    (force_from_heat : mat) (damping : list Qc) (k : ndarray)
    (masses : list Qc) (L : nat) : option (list Qc) :=
  let x := take L X in
  let v := drop L X in
  f_spring ← calc_force_from_spring (leftDiff x) (rightDiff x) k;
  f_damp ← calc_force_from_damping v damping masses;
  f_heat ← col sample force_from_heat;
  Some (v ++ zip_with Qcdiv
               (zip_with Qcplus (zip_with Qcplus f_spring f_damp) f_heat)
               masses).

(** Modelled from the spec: [helpers.finderb] is not among the sources.
    Section 4.2, [sampleAt]: the index of the rightmost sample time that is
    at most [t], and 0 when [t] lies before the first sample. *)
Definition sampleAt (t : Qc) (sortedTimes : list Qc) : nat :=
  Nat.pred (length (filter (λ s, s ≤ t) sortedTimes)).

End Spec.

(* ===================================================================== *)
(** * A concrete set of collaborators *)
(* ===================================================================== *)

Module Demo.

(** Forward Euler steps from one requested time to the next: a simple
    integrator in the place of [solve_ivp]. *)
Fixpoint euler (f : Qc → list Qc → option (list Qc)) (t : Qc) (y : list Qc)
    (t_eval : list Qc) : option (list (list Qc)) :=
  match t_eval with
  | [] => Some []
  | t' :: t_eval' =>
      dy ← f t y;
      let y' := zip_with (λ yi dyi, yi + (t' - t) * dyi) y dy in
      ys ← euler f t' y' t_eval';
      Some (y' :: ys)
  end.

(** The temperature maps are the sticks themselves, every simulation has
    the same hash, and the maps are accepted as they are. *)
#[export] Instance collaborators : Collaborators := {|
  TempMap := mat;
  SubSticks := unit;
  finderb := Spec.sampleAt;
  get_hash := λ _ _ _ _, "0";
  abspath_join := λ dir name, dir +:+ "/" +:+ name;
  check_temp_maps := λ tm dtm _, Some (tm, dtm);
  calc_sticks_from_temp_map := λ _ tm _, Some (tm, ());
  solve_ivp := λ f span y0 t_eval _,
    ys ← euler f (fst span) y0 t_eval;
    Some (transpose (Mat (length y0) ys))
|}.

Definition two_layers : Structure := {|
  get_number_of_layers := 2;
  thickness := vec [2; 4]%Z;
  mass_unit_area := vec [1; 1]%Z;
  spring_const := A1 (vec [1; 10]%Z);
  phonon_damping := vec [0; 0]%Z
|}.

Definition sim (heat_only : bool) : simulation := {|
  S := two_layers;
  cache_dir := "cache";
  force_recalc := false;
  only_heat := heat_only;
  progress_bar := false;
  options := default_ode_options
|}.

Definition delays : list Qc := vec [0; 1; 2; 3]%Z.
Definition sticks : mat := matZ 2 [[0; 0]; [2; 4]; [2; 4]; [2; 4]]%Z.
Definition empty_world : world := World ∅ [] [].
Definition cache_file : string := "cache/strain_map_num_0.npy".
Definition broken_cache : world := World {[ cache_file := Unreadable ]} [] [].

(** What the run of [sim false] on these inputs produces. *)
Definition force_from_heat : mat := matZ 4 [[0; -2; -2; -2]; [0; 2; 2; 2]]%Z.
Definition trajectory : mat :=
  matZ 4 [[0; 0; 0; -2]; [0; 0; 0; 2]; [0; 0; -2; -4]; [0; 0; 2; 4]]%Z.
Definition strain_map : mat := matZ 1 [[0]; [0]; [0]; [2]]%Z.
Definition velocities : mat := matZ 2 [[0; 0]; [0; 0]; [-2; 2]; [-4; 4]]%Z.
Definition after_first_call : world :=
  World {[ cache_file := Npy strain_map ]}
        ["Calculating linear thermal expansion ...";
         "Calculating coherent dynamics with ODE solver ...";
         "Elapsed time for _strain_map_";
         "_strain_map_num_ saved to file"]
        [OdeRun (Qc_of_Z 0, Qc_of_Z 3) (zeros 4)].

End Demo.

(* ===================================================================== *)
(** * structure.py: the sample structure *)
(* ===================================================================== *)

Module Sample.

(** A numeric attribute of a layer: a number, or a numpy array of
    numbers (the spring constants of an anharmonic layer). *)
Inductive value :=
| Number (x : Qc)
| Array (a : list Qc).

#[global] Instance value_eq_dec : EqDecision value.
Proof. solve_decision. Defined.

(** An [AmorphousLayer] or [UnitCell] of [layer.py], which is not among
    the sources: what [structure.py] reads of it, its [id], its
    [num_sub_systems] and its numeric attributes by name. *)
Record Layer := {
  id : string;
  layer_sub_systems : nat;
  attributes : gmap string value
}.

#[global] Instance Layer_eq_dec : EqDecision Layer.
Proof. solve_decision. Defined.

(** A [Structure] object: [sub_structures] is the list of the pairs
    [[sub_structure, N]], each a layer or a structure with its number of
    repetitions; [substrate] is [None] for the empty list of [__init__]. *)
#[local] Unset Elimination Schemes.
Inductive Structure :=
| MkStructure (name : string) (num_sub_systems : nat)
    (sub_structures : list (SubStructure * nat)) (substrate : option Structure)
with SubStructure :=
| ALayer (l : Layer)
| AStructure (s : Structure).
#[local] Set Elimination Schemes.

Definition name (self : Structure) : string :=
  match self with MkStructure n _ _ _ => n end.
Definition num_sub_systems (self : Structure) : nat :=
  match self with MkStructure _ n _ _ => n end.
Definition sub_structures (self : Structure) : list (SubStructure * nat) :=
  match self with MkStructure _ _ subs _ => subs end.
Definition substrate (self : Structure) : option Structure :=
  match self with MkStructure _ _ _ sb => sb end.

(** [Structure(name)] *)
Definition init (name : string) : Structure := MkStructure name 1 [] None.

(** [sub_structure.num_sub_systems] *)
Definition sub_systems_of (sub_structure : SubStructure) : nat :=
  match sub_structure with
  | ALayer l => layer_sub_systems l
  | AStructure s => num_sub_systems s
  end.

(** [add_sub_structure]; the first check, of the class of the argument, is
    the type [SubStructure].  [None] stands for the [ValueError]. *)
Definition add_sub_structure (self : Structure) (sub_structure : SubStructure)
    (N : nat) : option Structure :=
  if match sub_structure with
     | AStructure s => bool_decide (is_Some (substrate s))
     | ALayer _ => false
     end
  then None
  else if bool_decide (1 < num_sub_systems self)%nat
          && negb (bool_decide (sub_systems_of sub_structure
                                = num_sub_systems self))
  then None
  else Some (MkStructure (name self) (sub_systems_of sub_structure)
                         (sub_structures self ++ [(sub_structure, N)])
                         (substrate self)).

(** [add_substrate]; the check of the class is the type of the argument. *)
Definition add_substrate (self sub_structure : Structure) : Structure :=
  MkStructure (name self) (num_sub_systems self) (sub_structures self)
              (Some sub_structure).

Fixpoint get_number_of_sub_structures (self : Structure) : nat :=
  match self with
  | MkStructure _ _ subs _ =>
      foldl (λ N sub,
               match sub with
               | (ALayer _, _) => N + 1
               | (AStructure s, _) => N + get_number_of_sub_structures s
               end)%nat 0%nat subs
  end.

Fixpoint get_number_of_layers (self : Structure) : nat :=
  match self with
  | MkStructure _ _ subs _ =>
      foldl (λ N sub,
               match sub with
               | (ALayer _, n) => N + n
               | (AStructure s, n) => N + get_number_of_layers s * n
               end)%nat 0%nat subs
  end.

(** The inner loop of [get_unique_layers] over the unique layers of a
    sub-structure: those whose id is not in the list yet are added.  (The
    two lists that are traversed together have the same length, see
    [unique_layers_are_unique].) *)
Definition add_unique (acc : list string * list Layer)
    (temp1 : list string) (temp2 : list Layer) : list string * list Layer :=
  foldl (λ acc t,
           if decide (t.1 ∈ acc.1) then acc
           else (acc.1 ++ [t.1], acc.2 ++ [t.2]))
        acc (zip temp1 temp2).

Fixpoint get_unique_layers (self : Structure) : list string * list Layer :=
  match self with
  | MkStructure _ _ subs _ =>
      foldl (λ acc sub,
               let '(layer_ids, layer_handles) := acc in
               match sub with
               | (ALayer l, _) =>
                   if decide (layer_ids = [])
                   then (layer_ids ++ [id l], layer_handles ++ [l])
                   else if decide (id l ∈ layer_ids) then acc
                        else (layer_ids ++ [id l], layer_handles ++ [l])
               | (AStructure s, _) =>
                   if decide (layer_ids = []) then get_unique_layers s
                   else add_unique acc (get_unique_layers s).1
                                       (get_unique_layers s).2
               end) ([], []) subs
  end.

Definition get_number_of_unique_layers (self : Structure) : nat :=
  length (get_unique_layers self).1.

(** [list.index(x)]: the first position of [x], [ValueError] without one. *)
Definition index {A} `{EqDecision A} (l : list A) (x : A) : option nat :=
  fst <$> list_find (λ y, y = x) l.

(** [get_layer_vectors(layers)] *)
Fixpoint get_layer_vectors_of (layers : list string * list Layer)
    (self : Structure) : option (list nat * list string * list Layer) :=
  match self with
  | MkStructure _ _ subs _ =>
      foldl (λ acc sub,
               '(indices, layer_ids, layer_handles) ← acc;
               match sub with
               | (ALayer l, n) =>
                   Index ← index layers.1 (id l);
                   Some (indices ++ replicate n Index,
                         layer_ids ++ replicate n (id l),
                         layer_handles ++ replicate n l)
               | (AStructure s, n) =>
                   '(temp1, temp2, temp3) ← get_layer_vectors_of layers s;
                   Some (indices ++ concat (replicate n temp1),
                         layer_ids ++ concat (replicate n temp2),
                         layer_handles ++ concat (replicate n temp3))
               end) (Some ([], [], [])) subs
  end.

(** [get_layer_vectors()] *)
Definition get_layer_vectors (self : Structure)
  : option (list nat * list string * list Layer) :=
  get_layer_vectors_of (get_unique_layers self) self.

(** [get_layer_handle(i)] for a position [i] that is not negative. *)
Definition get_layer_handle (self : Structure) (i : nat) : option Layer :=
  '(_, _, handles) ← get_layer_vectors self;
  handles !! i.

(** [len(x)] of an attribute, 1 for a number (the [TypeError] branch). *)
Definition len_or_1 (v : value) : nat :=
  match v with
  | Number _ => 1
  | Array a => length a
  end.

(** [getattr(layer, property_name)]; [None] is the [AttributeError]. *)
Definition getattr (layer : Layer) (property_name : string) : option value :=
  attributes layer !! property_name.

(** The last branch of [get_layer_property_vector], "its a number or
    array", for real numbers.  (The three branches before it are for
    callables, for lists and strings and for pint quantities.)  A cell of
    the one-dimensional result takes a number or an array of one entry. *)
Definition get_layer_property_vector (self : Structure)
    (property_name : string) : option ndarray :=
  '(_, _, handles) ← get_layer_vectors self;
  first ← handles !! 0%nat;
  _ ← getattr first property_name;
  let layers := get_unique_layers self in
  temp ← mapM (λ layer, len_or_1 <$> getattr layer property_name) layers.2;
  let max_dim := max_list temp in
  let L := get_number_of_layers self in
  if decide (1 < max_dim)%nat then
    prop ← mapM (λ i, handle ← handles !! i;
                      temp ← getattr handle property_name;
                      match temp with
                      | Number x => Some (replicate max_dim x)
                      | Array a => assign_to max_dim a
                      end) (seq 0 L);
    Some (A2 (Mat max_dim prop))
  else
    prop ← mapM (λ i, handle ← handles !! i;
                      temp ← getattr handle property_name;
                      match temp with
                      | Number x => Some x
                      | Array [x] => Some x
                      | Array _ => None
                      end) (seq 0 L);
    Some (A1 prop).

(** [np.cumsum] of a one-dimensional array. *)
Fixpoint cumsum_from (start : Qc) (a : list Qc) : list Qc :=
  match a with
  | [] => []
  | x :: a' => (start + x) :: cumsum_from (start + x) a'
  end.
Definition cumsum (a : list Qc) : list Qc := cumsum_from 0 a.

(** The body of [get_distances_of_layers(units=False)] after the call of
    [get_layer_property_vector('_thickness')], for the one-dimensional
    array of thicknesses: [(d_start, d_end, d_mid)]. *)
Definition distances_of_layers (thickness : list Qc)
  : option (list Qc * list Qc * list Qc) :=
  let d_end := cumsum thickness in
  let d_start := [0] ++ but_last d_end in
  d_mid ← broadcast Qcplus d_start ((λ x, x / Qc_of_Z 2) <$> thickness);
  Some (d_start, d_end, d_mid).

(** [np.flatnonzero(indices == i)]: the positions that hold [i]. *)
Definition flatnonzero_eq (indices : list nat) (i : nat) : list nat :=
  filter (λ j, indices !! j = Some i) (seq 0 (length indices)).

(** [get_all_positions_per_unique_layer]: the dictionary from the id of
    each unique layer to the positions of the structure it stands at. *)
Definition get_all_positions_per_unique_layer (self : Structure)
  : option (gmap string (list nat)) :=
  let layers := get_unique_layers self in
  '(indices, _, _) ← get_layer_vectors self;
  Some (foldl (λ (pos : gmap string (list nat)) (il : nat * string),
                 <[il.2 := flatnonzero_eq indices il.1]> pos)
              ∅ (imap pair layers.1)).

(** All layers of a structure, one for each place of the tree where one
    stands; used to state what the traversals find. *)
Fixpoint layers_in (self : Structure) : list Layer :=
  match self with
  | MkStructure _ _ subs _ =>
      flat_map (λ sub, match sub with
                       | (ALayer l, _) => [l]
                       | (AStructure s, _) => layers_in s
                       end) subs
  end.

(** What the three vectors of [get_layer_vectors] have to do with each
    other and with the unique layers: there are [N] entries, the ids are
    those of the handles, and each index is the place of the id among the
    unique ids. *)
Definition vectors_agree (layers : list string * list Layer) (N : nat)
    (r : list nat * list string * list Layer) : Prop :=
  length r.1.1 = N
  ∧ r.1.2 = id <$> r.2
  ∧ Forall2 (λ i x, layers.1 !! i = Some x) r.1.1 r.1.2.

End Sample.

(** A small sample: two layers, [A] of thickness 2 and [B] of thickness 3,
    with spring constants of second order; [outer] holds [A] twice and then
    twice the structure [inner] of three [B] and one [A]. *)
Module SampleDemo.
Import Sample.

Definition layer (layer_id : string) (thickness : Z) (spring_const : list Z)
  : Layer :=
  {| id := layer_id; layer_sub_systems := 1;
     attributes := {[ "_thickness" := Number (Qc_of_Z thickness);
                      "spring_const" := Array (vec spring_const) ]} |}.
Definition layer_A : Layer := layer "A" 2 [1; 1]%Z.
Definition layer_B : Layer := layer "B" 3 [10; 7]%Z.
Definition inner : Structure :=
  MkStructure "inner" 1 [(ALayer layer_B, 3%nat); (ALayer layer_A, 1%nat)] None.
Definition outer : Structure :=
  MkStructure "outer" 1 [(ALayer layer_A, 2%nat); (AStructure inner, 2%nat)]
              None.

End SampleDemo.

(* ===================================================================== *)
(** * Properties of the numpy operations *)
(* ===================================================================== *)

Section numpy_facts.

Lemma bshape_same n : bshape n n = Some n.
Proof. unfold bshape. by rewrite decide_True. Qed.

Lemma stretch_same {A} n (l : list A) : length l = n → stretch n l = l.
Proof. intros <-. by destruct l as [|x [|y l]]. Qed.

Lemma broadcast_same {A B C} (f : A → B → C) a b :
  length a = length b → broadcast f a b = Some (zip_with f a b).
Proof.
  intros Hab. unfold broadcast. rewrite Hab, bshape_same. simpl.
  by rewrite !stretch_same.
Qed.

Lemma assign_to_same n val : length val = n → assign_to n val = Some val.
Proof. intros Hn. unfold assign_to. by rewrite decide_True. Qed.

Lemma zip_with_stretch_rows (f : Qc → Qc → Qc) c (ra rb : list (list Qc)) :
  Forall (λ r, length r = c) ra → Forall (λ r, length r = c) rb →
  zip_with (λ x y, zip_with f (stretch c x) (stretch c y)) ra rb
  = zip_with (zip_with f) ra rb.
Proof.
  intros Ha. revert rb. induction Ha as [|x ra Hx _ IH]; intros rb Hb; [done|].
  destruct Hb as [|y rb Hy Hb]; [done|]. simpl.
  by rewrite !stretch_same, IH.
Qed.

Lemma broadcast2_same f a b :
  wf_mat a → wf_mat b → nrows a = nrows b → ncols a = ncols b →
  broadcast2 f a b = Some (Mat (ncols a) (zip_with (zip_with f) (rows a) (rows b))).
Proof.
  intros Ha Hb Hr Hc. unfold broadcast2.
  rewrite Hr, Hc, !bshape_same. simpl.
  rewrite !stretch_same by done.
  rewrite zip_with_stretch_rows; [done| |done].
  by rewrite <-Hc.
Qed.

Lemma length_diff1 a : length (diff1 a) = (length a - 1)%nat.
Proof.
  induction a as [|x [|y a] IH]; [done..|].
  change (diff1 (x :: y :: a)) with ((y - x) :: diff1 (y :: a)).
  simpl in *. rewrite IH. lia.
Qed.

Lemma lookup_diff1 a i x y :
  a !! i = Some x → a !! Datatypes.S i = Some y → diff1 a !! i = Some (y - x).
Proof.
  revert i. induction a as [|x0 [|y0 a] IH]; intros i Hx Hy; [done..|].
  change (diff1 (x0 :: y0 :: a)) with ((y0 - x0) :: diff1 (y0 :: a)).
  destruct i as [|i]; simpl in *; [congruence|]. by apply IH.
Qed.

(** Reshaping an array to the shape it has. *)
Lemma chunks_concat c (rs : list (list Qc)) :
  Forall (λ r, length r = c) rs →
  (λ i, take c (drop (i * c) (concat rs))) <$> seq 0 (length rs) = rs.
Proof.
  induction 1 as [|r rs Hr _ IH]; [done|]. csimpl.
  rewrite drop_0, take_app_length' by done. f_equal.
  rewrite <-fmap_S_seq, <-list_fmap_compose. rewrite <-IH at 2.
  apply list_fmap_ext. intros _ i _. simpl.
  by rewrite drop_app_add' by done.
Qed.

Lemma length_concat_wf c (rs : list (list Qc)) :
  Forall (λ r, length r = c) rs → length (concat rs) = (length rs * c)%nat.
Proof. induction 1 as [|r rs Hr _ IH]; [done|]. simpl. rewrite length_app. lia. Qed.

Lemma reshape_same m :
  wf_mat m → reshape (A2 m) (nrows m) (ncols m) = Some m.
Proof.
  intros Hm. unfold reshape. simpl.
  rewrite decide_True by by apply length_concat_wf.
  unfold nrows. rewrite chunks_concat by done. by destruct m.
Qed.

Lemma reshape_column v :
  reshape (A1 v) (length v) 1 = Some (Mat 1 ((λ x, [x]) <$> v)).
Proof.
  unfold reshape. simpl. rewrite decide_True by lia. do 2 f_equal.
  induction v as [|x v IH]; [done|]. csimpl. f_equal.
  rewrite <-fmap_S_seq, <-list_fmap_compose. rewrite <-IH.
  apply list_fmap_ext. intros _ i _. simpl. done.
Qed.

End numpy_facts.

Section column_loops.

Lemma fmap_const_seq {A} (z : A) j n : (λ _, z) <$> seq j n = replicate n z.
Proof. revert j. induction n as [|n IH]; intros j; [done|]. csimpl. by rewrite IH. Qed.

Lemma zeros2_filled L T : zeros2 L T = filled L T [].
Proof.
  unfold zeros2, filled. f_equal. rewrite <-(fmap_const_seq _ 0).
  apply list_fmap_ext. intros _ i _. simpl. by rewrite Nat.sub_0_r.
Qed.

Lemma nrows_filled L T cs : nrows (filled L T cs) = L.
Proof. unfold nrows, filled. simpl. by rewrite length_fmap, length_seq. Qed.

Lemma set_col_filled L T cs c j :
  length cs = j → (j < T)%nat → length c = L →
  set_col j c (filled L T cs) = Some (filled L T (cs ++ [c])).
Proof.
  intros <- HT Hc. unfold set_col. rewrite decide_True by done.
  rewrite nrows_filled, assign_to_same by done.
  unfold filled. simpl. do 2 f_equal.
  apply list_eq. intros i.
  rewrite lookup_zip_with, !list_lookup_fmap.
  destruct (decide (i < L)%nat) as [Hi|Hi].
  - rewrite lookup_seq_lt by done. simpl.
    destruct (lookup_lt_is_Some_2 c i) as [x Hx]; [lia|]. rewrite Hx. simpl.
    f_equal. rewrite fmap_app, length_app. simpl. rewrite Hx. simpl.
    replace (T - length cs)%nat with (Datatypes.S (T - (length cs + 1))) by lia.
    rewrite <-(assoc_L (++)). simpl.
    rewrite insert_app_r_alt by (rewrite length_fmap; lia).
    by rewrite length_fmap, Nat.sub_diag.
  - by rewrite lookup_seq_ge by lia.
Qed.

Lemma filled_full L cs : filled L (length cs) cs = transpose (Mat L cs).
Proof.
  unfold filled, transpose, nrows. simpl. f_equal.
  apply list_fmap_ext. intros _ i _. simpl.
  rewrite Nat.sub_diag. apply app_nil_r.
Qed.

Lemma length_power_cols d n : length (power_cols d n) = n.
Proof. unfold power_cols. by rewrite length_fmap, length_seq. Qed.

Lemma power_cols_S d n :
  power_cols d (Datatypes.S n) = power_cols d n ++ [(λ x, x ^ (n + 1)) <$> d].
Proof. unfold power_cols. by rewrite seq_S, fmap_app. Qed.

Lemma power_columns_filled d1 d2 M n j :
  length d2 = length d1 → (j + n = M)%nat →
  power_columns (seq j n) d1 d2 (filled (length d1) M (power_cols d1 j))
                                (filled (length d1) M (power_cols d2 j))
  = Some (filled (length d1) M (power_cols d1 M),
          filled (length d1) M (power_cols d2 M)).
Proof.
  intros Hd. revert j. induction n as [|n IH]; intros j Hj.
  - simpl. by replace j with M by lia.
  - simpl.
    rewrite (set_col_filled _ _ (power_cols d1 j) _ j);
      [|apply length_power_cols|lia|by rewrite length_fmap].
    rewrite (set_col_filled _ _ (power_cols d2 j) _ j);
      [|apply length_power_cols|lia|by rewrite length_fmap].
    simpl. rewrite <-!power_cols_S.
    apply IH. lia.
Qed.

Lemma transpose_power_cols d M :
  transpose (Mat (length d) (power_cols d M)) = Mat M (powers M <$> d).
Proof.
  unfold transpose, nrows. simpl. rewrite length_power_cols. f_equal.
  apply list_eq. intros i. rewrite !list_lookup_fmap.
  destruct (decide (i < length d)%nat) as [Hi|Hi].
  - rewrite lookup_seq_lt by done. simpl.
    destruct (lookup_lt_is_Some_2 d i) as [x Hx]; [lia|]. rewrite Hx. simpl.
    f_equal. unfold power_cols, powers. rewrite <-list_fmap_compose.
    apply list_fmap_ext. intros _ j _. simpl.
    by rewrite list_lookup_fmap, Hx.
  - rewrite lookup_seq_ge by lia. by rewrite lookup_ge_None_2 by lia.
Qed.

Lemma filled_power_cols L d M :
  length d = L → filled L M (power_cols d M) = Mat M (powers M <$> d).
Proof.
  intros <-. rewrite <-transpose_power_cols, <-filled_full.
  by rewrite length_power_cols.
Qed.

(** The two arrays of powers after the loop of [calc_force_from_spring]. *)
Lemma power_columns_zeros d1 d2 M :
  length d2 = length d1 →
  power_columns (seq 0 M) d1 d2 (zeros2 (length d1) M) (zeros2 (length d1) M)
  = Some (Mat M (powers M <$> d1), Mat M (powers M <$> d2)).
Proof.
  intros Hd. rewrite zeros2_filled.
  etrans; [exact (power_columns_filled d1 d2 M M 0 Hd eq_refl)|].
  by rewrite !filled_power_cols.
Qed.

End column_loops.

(** One step of a computation in the option monad whose first part has
    been rewritten to a value. *)
Ltac bind_step := cbn [mbind option_bind mret option_ret].

Section spring.

Lemma vstack_same a b :
  ncols a = ncols b → vstack a b = Some (Mat (ncols a) (rows a ++ rows b)).
Proof. intros Hab. unfold vstack. by rewrite decide_True. Qed.

Lemma length_powers M d : length (powers M d) = M.
Proof. unfold powers. by rewrite length_fmap, length_seq. Qed.

Lemma length_but_last {A} (l : list A) : length (but_last l) = (length l - 1)%nat.
Proof. unfold but_last. rewrite length_take. lia. Qed.

Lemma but_last_snoc {A} (l : list A) x : but_last (l ++ [x]) = l.
Proof.
  unfold but_last. rewrite length_app. simpl.
  replace (length l + 1 - 1)%nat with (length l) by lia.
  by rewrite take_app_length.
Qed.

Lemma layer_aligned_rows L M k :
  layer_aligned L M k →
  length (consts_rows k) = L ∧ Forall (λ r, length r = M) (consts_rows k).
Proof.
  destruct k as [v|m]; simpl.
  - intros [<- ->]. split; [by rewrite length_fmap|].
    apply Forall_fmap, Forall_true. done.
  - intros (Hm & <- & <-). done.
Qed.

Lemma layer_aligned_reshape L M k :
  layer_aligned L M k →
  size k 0 = Some L ∧ default 1%nat (size k 1) = M
  ∧ reshape k L M = Some (Mat M (consts_rows k)).
Proof.
  destruct k as [v|m]; simpl.
  - intros [<- ->]. split_and!; [done..|]. apply reshape_column.
  - intros (Hm & <- & <-). split_and!; [done..|].
    rewrite reshape_same by done. by destruct m.
Qed.

Lemma sum1_products M cs d :
  Qcsum <$> zip_with (zip_with Qcmult) cs (powers M <$> d)
  = zip_with (dot M) cs d.
Proof.
  revert d. induction cs as [|c cs IH]; intros [|x d]; csimpl; [done..|].
  by rewrite IH.
Qed.

(** The value of [calc_force_from_spring] on inputs of matching lengths. *)
Lemma calc_force_from_spring_closed L M k a b :
  layer_aligned L M k → (1 ≤ L)%nat → length a = L → length b = L →
  calc_force_from_spring a b k = Some (spring_closed M (consts_rows k) a b).
Proof.
  intros Hk HL Ha Hb.
  destruct (layer_aligned_reshape _ _ _ Hk) as (H0 & H1 & Hre).
  destruct (layer_aligned_rows _ _ _ Hk) as (Hlen & Hwf).
  assert (Hup : Forall (λ r, length r = M)
            ((λ r : list Qc, Qcopp <$> r) <$> but_last (consts_rows k))).
  { apply Forall_fmap. unfold but_last. apply Forall_take.
    eapply Forall_impl; [|exact Hwf]. intros r Hr. simpl. by rewrite length_fmap. }
  assert (Hz : length (zeros M) = M) by apply length_replicate.
  assert (Hp : ∀ d : list Qc, Forall (λ r, length r = M) (powers M <$> d)).
  { intros d. apply Forall_fmap, Forall_true. intros x. apply length_powers. }
  unfold calc_force_from_spring. rewrite H0, H1. bind_step.
  rewrite Hre. bind_step. unfold neg, zeros2. cbn [ncols rows replicate].
  rewrite !vstack_same by done. bind_step. cbn [ncols rows].
  rewrite power_columns_zeros by congruence. bind_step.
  rewrite (broadcast2_same _ (Mat M ([_] ++ _)) (Mat M (_ <$> b)));
    [|by constructor|apply Hp|..|done]; cycle 1.
  { unfold nrows. cbn [rows]. rewrite length_app, !length_fmap, length_but_last.
    simpl. lia. }
  bind_step.
  rewrite (broadcast2_same _ (Mat M (_ ++ _)) (Mat M (_ <$> a)));
    [|by apply Forall_app; split; [|constructor]|apply Hp|..|done]; cycle 1.
  { unfold nrows. cbn [rows]. rewrite length_app, !length_fmap, length_but_last.
    simpl. lia. }
  bind_step. unfold sum1. cbn [rows ncols]. rewrite !sum1_products.
  apply broadcast_same.
  rewrite !length_zip_with. cbn [length].
  rewrite !length_app, !length_fmap, length_but_last. cbn [length]. lia.
Qed.

Lemma Qcsum_zeros n ps : Qcsum (zip_with Qcmult (replicate n 0) ps) = 0.
Proof.
  revert ps. induction n as [|n IH]; intros [|p ps]; simpl; [done..|].
  rewrite IH. ring.
Qed.

Lemma Qcsum_opp ks ps :
  Qcsum (zip_with Qcmult (Qcopp <$> ks) ps) = - Qcsum (zip_with Qcmult ks ps).
Proof.
  revert ps. induction ks as [|x ks IH]; intros [|p ps]; csimpl;
    [ring..|]. simpl. rewrite IH. ring.
Qed.

Lemma dot_zeros M d : dot M (zeros M) d = 0.
Proof. apply Qcsum_zeros. Qed.

Lemma dot_opp ks d : dot (length ks) (Qcopp <$> ks) d = - poly ks d.
Proof. apply Qcsum_opp. Qed.

Lemma consts_row_lookup k i r : consts_rows k !! i = Some r → consts_row k i = r.
Proof. unfold consts_row. by intros ->. Qed.

(** Entry [i] of the closed form. *)
Lemma spring_closed_lookup L M k a b i ai bi :
  layer_aligned L M k → length a = L → length b = L →
  a !! i = Some ai → b !! i = Some bi →
  spring_closed M (consts_rows k) a b !! i
  = Some ((if decide (Datatypes.S i < L)%nat then poly (consts_row k i) ai else 0)
          - match i with
            | O => 0
            | Datatypes.S p => poly (consts_row k p) bi
            end).
Proof.
  intros Hk Ha Hb Hai Hbi.
  destruct (layer_aligned_rows _ _ _ Hk) as (Hlen & Hwf).
  assert (Hi : (i < L)%nat) by (rewrite <-Ha; by eapply lookup_lt_Some).
  assert (Hrow : ∀ p, (Datatypes.S p < L)%nat →
            ((λ r : list Qc, Qcopp <$> r) <$> but_last (consts_rows k)) !! p
            = Some (Qcopp <$> consts_row k p) ∧ length (consts_row k p) = M).
  { intros p Hp. destruct (lookup_lt_is_Some_2 (consts_rows k) p) as [r Hr]; [lia|].
    rewrite (consts_row_lookup _ _ _ Hr). split.
    - rewrite list_lookup_fmap. unfold but_last.
      rewrite lookup_take_lt by lia. by rewrite Hr.
    - by eapply (Forall_lookup_1 _ _ _ _ Hwf). }
  unfold spring_closed. cbn zeta.
  rewrite lookup_zip_with.
  assert (Hleft : (zip_with (dot M) (zeros M ::
             ((λ r : list Qc, Qcopp <$> r) <$> but_last (consts_rows k))) b) !! i
           = Some (- match i with
                     | O => 0
                     | Datatypes.S p => poly (consts_row k p) bi
                     end)).
  { rewrite lookup_zip_with, Hbi. destruct i as [|p].
    - simpl. rewrite dot_zeros. f_equal; ring.
    - rewrite lookup_cons_ne_0 by done. cbn [pred].
      destruct (Hrow p Hi) as [-> HM]. simpl. by rewrite <-HM, dot_opp. }
  assert (Hright : (zip_with (dot M)
             (((λ r : list Qc, Qcopp <$> r) <$> but_last (consts_rows k))
              ++ [zeros M]) a) !! i
           = Some (- (if decide (Datatypes.S i < L)%nat
                      then poly (consts_row k i) ai else 0))).
  { rewrite lookup_zip_with, Hai. case_decide as HS.
    - destruct (Hrow i HS) as [Hr HM].
      rewrite (lookup_app_l_Some _ _ _ _ Hr). simpl. by rewrite <-HM, dot_opp.
    - rewrite lookup_app_r by (rewrite length_fmap, length_but_last; lia).
      rewrite length_fmap, length_but_last, Hlen.
      replace (i - (L - 1))%nat with 0%nat by lia. simpl.
      rewrite dot_zeros. f_equal; ring. }
  rewrite Hleft, Hright. simpl. f_equal. ring.
Qed.

Lemma length_spring_closed L M k a b :
  layer_aligned L M k → (1 ≤ L)%nat → length a = L → length b = L →
  length (spring_closed M (consts_rows k) a b) = L.
Proof.
  intros Hk HL Ha Hb. destruct (layer_aligned_rows _ _ _ Hk) as (Hlen & _).
  unfold spring_closed. cbn zeta. rewrite !length_zip_with. cbn [length].
  rewrite !length_app, !length_fmap, length_but_last. cbn [length]. lia.
Qed.

End spring.

Section heat.

Lemma heat_col_spring L M k row :
  layer_aligned L M k → (1 ≤ L)%nat → length row = L →
  calc_force_from_spring (take (L - 1) row ++ [0]) (0 :: take (L - 1) row) k
  = Some (spring_closed M (consts_rows k)
                        (take (L - 1) row ++ [0]) (0 :: take (L - 1) row))
  ∧ length (heat_col k L M row) = L.
Proof.
  intros Hk HL Hrow.
  assert (H1 : length (take (L - 1) row ++ [0]) = L).
  { rewrite length_app, length_take. simpl. lia. }
  assert (H2 : length (0 :: take (L - 1) row) = L).
  { cbn [length]. rewrite length_take. lia. }
  split; [by apply (calc_force_from_spring_closed L M)|].
  unfold heat_col. rewrite length_fmap. by apply length_spring_closed.
Qed.

Lemma heat_columns_filled L M T k sticks n j :
  layer_aligned L M k → (1 ≤ L)%nat →
  wf_mat sticks → nrows sticks = T → ncols sticks = L → (j + n = T)%nat →
  heat_columns (seq j n) sticks k L
               (filled L T (heat_col k L M <$> take j (rows sticks)))
  = Some (filled L T (heat_col k L M <$> rows sticks)).
Proof.
  intros Hk HL Hwf HT HLs. revert j. induction n as [|n IH]; intros j Hj.
  - simpl. rewrite take_ge; [done|]. unfold nrows in HT. lia.
  - cbn [seq heat_columns].
    destruct (lookup_lt_is_Some_2 (rows sticks) j) as [row Hrow];
      [unfold nrows in HT; lia|].
    rewrite Hrow. bind_step.
    assert (Hlen : length row = L).
    { rewrite <-HLs. by eapply (Forall_lookup_1 _ _ _ _ Hwf). }
    destruct (heat_col_spring L M k row Hk HL Hlen) as [-> Hcol]. bind_step.
    rewrite (set_col_filled L T _ _ j); [|..|done].
    + bind_step.
      change (Qcopp <$> spring_closed M (consts_rows k) (take (L - 1) row ++ [0])
                      (0 :: take (L - 1) row)) with (heat_col k L M row).
      change ([heat_col k L M row]) with (heat_col k L M <$> [row]).
      rewrite <-fmap_app, <-(take_S_r _ _ _ Hrow). apply IH. lia.
    + rewrite length_fmap, length_take. unfold nrows in HT. lia.
    + lia.
Qed.

(** The value of [calc_force_from_heat]: the transposed array of the
    negated spring forces, one column per row of sticks. *)
Lemma calc_force_from_heat_closed L M T k sticks :
  layer_aligned L M k → (1 ≤ L)%nat →
  wf_mat sticks → nrows sticks = T → ncols sticks = L →
  calc_force_from_heat sticks k
  = Some (transpose (Mat L (heat_col k L M <$> rows sticks))).
Proof.
  intros Hk HL Hwf HT HLs. unfold calc_force_from_heat.
  rewrite HT, HLs, zeros2_filled.
  etrans; [exact (heat_columns_filled L M T k sticks T 0 Hk HL Hwf HT HLs eq_refl)|].
  f_equal. rewrite <-filled_full, length_fmap. by rewrite <-HT.
Qed.

Lemma col_transpose L cs t c :
  cs !! t = Some c → length c = L → col t (transpose (Mat L cs)) = Some c.
Proof.
  intros Hc Hlen. unfold col, transpose, nrows. cbn [ncols rows].
  rewrite decide_True by by eapply lookup_lt_Some.
  apply mapM_Some. apply Forall2_same_length_lookup. split.
  { by rewrite length_fmap, length_seq. }
  intros i row x Hrow Hx.
  rewrite list_lookup_fmap in Hrow.
  destruct (seq 0 L !! i) as [j|] eqn:Hj; [|done].
  apply lookup_seq in Hj as [-> Hi]. simpl in Hrow. injection Hrow as <-.
  by rewrite list_lookup_fmap, Hc; simpl; rewrite Hx.
Qed.

Lemma wf_transpose L cs : wf_mat (transpose (Mat L cs)).
Proof.
  unfold wf_mat, transpose, nrows. cbn [ncols rows].
  apply Forall_fmap, Forall_true. intros j. simpl. by rewrite length_fmap.
Qed.

End heat.

(* ===================================================================== *)
(** * The force model: results *)
(* ===================================================================== *)

Section force_model.

(** The damping force is [masses * damping * v]: [np.diff(v, 0)] is [v]. *)
Lemma calc_force_from_damping_value v damping masses :
  length damping = length v → length masses = length v →
  calc_force_from_damping v damping masses
  = Some (zip_with Qcmult (zip_with Qcmult masses damping) v).
Proof.
  intros Hd Hm. unfold calc_force_from_damping.
  rewrite broadcast_same by congruence. bind_step.
  apply broadcast_same. rewrite length_zip_with. simpl. lia.
Qed.

Lemma same_but_last_row_spring k k' a b :
  same_but_last_row k k' →
  calc_force_from_spring a b k = calc_force_from_spring a b k'.
Proof.
  intros (L & M & Hk & Hk' & Hbl).
  destruct (layer_aligned_reshape _ _ _ Hk) as (H0 & H1 & Hre).
  destruct (layer_aligned_reshape _ _ _ Hk') as (H0' & H1' & Hre').
  unfold calc_force_from_spring.
  rewrite H0, H1, H0', H1'. bind_step. rewrite Hre, Hre'. bind_step.
  cbn [rows ncols]. by rewrite Hbl.
Qed.

Lemma same_but_last_heat_columns k k' s s' L range F :
  same_but_last_row k k' →
  Forall2 (λ r r', take (L - 1) r = take (L - 1) r') (rows s) (rows s') →
  heat_columns range s k L F = heat_columns range s' k' L F.
Proof.
  intros Hk Hs. revert F. induction range as [|i range IH]; intros F; [done|].
  cbn [heat_columns].
  destruct (rows s !! i) as [r|] eqn:Hr.
  - destruct (Forall2_lookup_l _ _ _ _ _ Hs Hr) as (r' & -> & Hrr).
    bind_step. rewrite Hrr, (same_but_last_row_spring k k' _ _ Hk).
    destruct (calc_force_from_spring _ _ k') as [f|]; [|done]. bind_step.
    destruct (set_col _ _ _) as [F'|]; [|done]. bind_step. apply IH.
  - assert (rows s' !! i = None) as ->; [|done].
    apply lookup_ge_None. rewrite <-(Forall2_length Hs).
    by apply lookup_ge_None.
Qed.

End force_model.

(** C2 (the code differs from its documentation): [calc_force_from_damping]
    documents the force of the velocity difference [v_i - v_{i-1}], and the
    specification asks for [mass_i * damping_i * (v_i - v_{i-1})].  The code
    passes [np.diff(v, 0)], the zeroth difference, which is [v] itself: for
    the velocities [1, 2] with unit masses and damping it returns [1, 2],
    where the documented formula gives [1, 1]. *)
Theorem damping_force_takes_no_difference :
  calc_force_from_damping (vec [1; 2]%Z) (vec [1; 1]%Z) (vec [1; 1]%Z)
  = Some (vec [1; 2]%Z)
  ∧ Spec.dampingForce (vec [1; 2]%Z) (vec [1; 1]%Z) (vec [1; 1]%Z)
    = vec [1; 1]%Z.
Proof. split; compute_done. Qed.

(** C3, as stated, fails: for the spring constants [k_0 = 1], [k_1 = 10] and
    the differences [leftDiff = (0, 3)], [rightDiff = (5, 0)] the formula of
    the specification gives the forces [(50, -30)], while the code returns
    [(0, 0)] for the arguments in the order of the specification and
    [(5, -3)] for the arguments exchanged. *)
Lemma spring_force_spec_formula_fails :
  let k := A2 (matZ 1 [[1]; [10]]%Z) in
  let leftDiff := vec [0; 3]%Z in
  let rightDiff := vec [5; 0]%Z in
  Spec.springForce leftDiff rightDiff k = vec [50; -30]%Z
  ∧ calc_force_from_spring leftDiff rightDiff k = Some (vec [0; 0]%Z)
  ∧ calc_force_from_spring rightDiff leftDiff k = Some (vec [5; -3]%Z)
  ∧ calc_force_from_spring leftDiff rightDiff k
    ≠ Some (Spec.springForce leftDiff rightDiff k)
  ∧ calc_force_from_spring rightDiff leftDiff k
    ≠ Some (Spec.springForce leftDiff rightDiff k).
Proof. cbv zeta. split_and!; compute_done. Qed.

(** C3, amended: for spring constants of [L >= 1] layers and order [M] and
    two vectors of [L] differences, [calc_force_from_spring d_X1 d_X2 k]
    returns [L] forces, and the force on layer [i] is
    [Σ_j k_i^j (d_X1_i)^j - Σ_j k_{i-1}^j (d_X2_i)^j], the sums over
    [j = 1..M], without the first sum for the last layer and without the
    second sum for layer 0 (an open chain). *)
Theorem calc_force_from_spring_formula L M (d_X1 d_X2 : list Qc) (k : ndarray) :
  layer_aligned L M k → (1 ≤ L)%nat → length d_X1 = L → length d_X2 = L →
  ∃ F, calc_force_from_spring d_X1 d_X2 k = Some F
       ∧ length F = L
       ∧ ∀ i ai bi, d_X1 !! i = Some ai → d_X2 !! i = Some bi →
           F !! i = Some ((if decide (Datatypes.S i < L)%nat
                           then poly (consts_row k i) ai else 0)
                          - match i with
                            | O => 0
                            | Datatypes.S p => poly (consts_row k p) bi
                            end).
Proof.
  intros Hk HL Ha Hb. exists (spring_closed M (consts_rows k) d_X1 d_X2).
  split_and!.
  - by apply (calc_force_from_spring_closed L M).
  - by apply length_spring_closed.
  - intros i ai bi Hai Hbi. by apply spring_closed_lookup.
Qed.

Lemma calc_force_from_spring_formula_witness :
  let k := A2 (matZ 2 [[1; 1]; [10; 7]]%Z) in
  let d_X1 := vec [2; 0]%Z in
  let d_X2 := vec [0; 3]%Z in
  (layer_aligned 2 2 k ∧ (1 ≤ 2)%nat ∧ length d_X1 = 2%nat ∧ length d_X2 = 2%nat)
  ∧ ∃ F, calc_force_from_spring d_X1 d_X2 k = Some F
         ∧ length F = 2%nat
         ∧ ∀ i ai bi, d_X1 !! i = Some ai → d_X2 !! i = Some bi →
             F !! i = Some ((if decide (Datatypes.S i < 2)%nat
                             then poly (consts_row k i) ai else 0)
                            - match i with
                              | O => 0
                              | Datatypes.S p => poly (consts_row k p) bi
                              end).
Proof.
  cbv zeta.
  assert (H : layer_aligned 2 2 (A2 (matZ 2 [[1; 1]; [10; 7]]%Z))
              ∧ (1 ≤ 2)%nat ∧ length (vec [2; 0]%Z) = 2%nat
              ∧ length (vec [0; 3]%Z) = 2%nat).
  { split_and!; [|lia|reflexivity|reflexivity].
    simpl. split_and!; [repeat constructor|reflexivity|reflexivity]. }
  split; [exact H|].
  destruct H as (H1 & H2 & H3 & H4).
  exact (calc_force_from_spring_formula 2 2 _ _ _ H1 H2 H3 H4).
Defined.

(** C4, as stated, fails: for one row of sticks over two layers ([T = 1],
    [L = 2]) the force array has two rows and one column, not the shape
    [[T, L]]: the time samples are its columns. *)
Lemma heat_force_shape_is_not_T_by_L :
  let sticks := matZ 2 [[3; 4]]%Z in
  let k := A1 (vec [1; 10]%Z) in
  calc_force_from_heat sticks k = Some (matZ 1 [[-3]; [3]]%Z)
  ∧ (shape ∘ A2) <$> calc_force_from_heat sticks k ≠ Some [1; 2]%nat.
Proof. cbv zeta. split; compute_done. Qed.

(** C4, amended: for sticks of shape [[T, L]] and spring constants of the
    [L >= 1] layers, [calc_force_from_heat] returns a force array of shape
    [[L, T]] whose column [t] is the negated result of one call of
    [calc_force_from_spring], on the elongations of row [t] without the last
    one, padded with a zero at the end (first argument) and at the front
    (second argument). *)
Theorem calc_force_from_heat_columns L M T (sticks : mat) (k : ndarray) :
  layer_aligned L M k → (1 ≤ L)%nat →
  wf_mat sticks → nrows sticks = T → ncols sticks = L →
  ∃ F, calc_force_from_heat sticks k = Some F
       ∧ wf_mat F ∧ shape (A2 F) = [L; T]
       ∧ ∀ t row, rows sticks !! t = Some row →
           ∃ f, calc_force_from_spring (take (L - 1) row ++ [0])
                                       (0 :: take (L - 1) row) k = Some f
                ∧ col t F = Some (Qcopp <$> f).
Proof.
  intros Hk HL Hwf HT HLs.
  exists (transpose (Mat L (heat_col k L M <$> rows sticks))). split_and!.
  - by apply (calc_force_from_heat_closed L M T).
  - apply wf_transpose.
  - unfold shape, transpose, nrows. cbn [rows ncols].
    by rewrite !length_fmap, length_seq, <-HT.
  - intros t row Hrow.
    assert (Hlen : length row = L).
    { rewrite <-HLs. by eapply (Forall_lookup_1 _ _ _ _ Hwf). }
    destruct (heat_col_spring L M k row Hk HL Hlen) as [Hf Hcol].
    eexists. split; [exact Hf|].
    apply col_transpose; [|exact Hcol].
    by rewrite list_lookup_fmap, Hrow.
Qed.

Lemma calc_force_from_heat_columns_witness :
  let sticks := matZ 2 [[1; 2]; [3; 4]; [5; 6]]%Z in
  let k := A2 (matZ 1 [[1]; [10]]%Z) in
  (layer_aligned 2 1 k ∧ (1 ≤ 2)%nat ∧ wf_mat sticks
   ∧ nrows sticks = 3%nat ∧ ncols sticks = 2%nat)
  ∧ ∃ F, calc_force_from_heat sticks k = Some F
         ∧ wf_mat F ∧ shape (A2 F) = [2; 3]%nat
         ∧ ∀ t row, rows sticks !! t = Some row →
             ∃ f, calc_force_from_spring (take (2 - 1) row ++ [0])
                                         (0 :: take (2 - 1) row) k = Some f
                  ∧ col t F = Some (Qcopp <$> f).
Proof.
  cbv zeta.
  assert (H : layer_aligned 2 1 (A2 (matZ 1 [[1]; [10]]%Z)) ∧ (1 ≤ 2)%nat
              ∧ wf_mat (matZ 2 [[1; 2]; [3; 4]; [5; 6]]%Z)
              ∧ nrows (matZ 2 [[1; 2]; [3; 4]; [5; 6]]%Z) = 3%nat
              ∧ ncols (matZ 2 [[1; 2]; [3; 4]; [5; 6]]%Z) = 2%nat).
  { split_and!; [|lia|repeat constructor|reflexivity|reflexivity].
    simpl. split_and!; [repeat constructor|reflexivity|reflexivity]. }
  split; [exact H|].
  destruct H as (H1 & H2 & H3 & H4 & H5).
  exact (calc_force_from_heat_columns 2 1 3 _ _ H1 H2 H3 H4 H5).
Defined.

(** C9, as stated, fails: on a single layer with unit mass, damping and
    velocity [calc_force_from_damping] returns the force 1, not zero.  This
    is the value that the damping formula of the specification,
    [mass_i * damping_i * (v_i - v_{i-1})] with [v_{-1} = 0], has for the
    only layer. *)
Lemma single_layer_damping_is_not_zero :
  calc_force_from_damping (vec [1]%Z) (vec [1]%Z) (vec [1]%Z)
  = Some (vec [1]%Z)
  ∧ calc_force_from_damping (vec [1]%Z) (vec [1]%Z) (vec [1]%Z) ≠ Some [0]
  ∧ Spec.dampingForce (vec [1]%Z) (vec [1]%Z) (vec [1]%Z) = vec [1]%Z.
Proof. split_and!; compute_done. Qed.

(** C9, amended: on a single layer [calc_force_from_spring] returns the
    force zero for every displacement difference and every row of spring
    constants, and [calc_force_from_damping] returns [mass * damping * v],
    the value of the damping formula with [v_{-1} = 0] for the only layer;
    neither raises. *)
Theorem single_layer_forces :
  (∀ d1 d2 ks, calc_force_from_spring [d1] [d2] (A2 (Mat (length ks) [ks]))
               = Some [0])
  ∧ (∀ d1 d2 k0, calc_force_from_spring [d1] [d2] (A1 [k0]) = Some [0])
  ∧ (∀ v g m, calc_force_from_damping [v] [g] [m] = Some [m * g * v])
  ∧ (∀ v g m, calc_force_from_damping [v] [g] [m]
              = Some (Spec.dampingForce [v] [g] [m])).
Proof.
  assert (Hspring : ∀ M k d1 d2, layer_aligned 1 M k →
            calc_force_from_spring [d1] [d2] k = Some [0]).
  { intros M k d1 d2 Hk.
    rewrite (calc_force_from_spring_closed 1 M k [d1] [d2] Hk) by done.
    destruct (layer_aligned_rows _ _ _ Hk) as (Hlen & _).
    destruct (consts_rows k) as [|r [|r' rs]]; [done| |done].
    unfold spring_closed, but_last. simpl. rewrite !dot_zeros.
    do 2 f_equal; ring. }
  split_and!.
  - intros d1 d2 ks. apply (Hspring (length ks)). simpl.
    split_and!; [by repeat constructor|done..].
  - intros d1 d2 k0. by apply (Hspring 1%nat).
  - intros v g m. by rewrite calc_force_from_damping_value.
  - intros v g m. rewrite calc_force_from_damping_value by done.
    unfold Spec.dampingForce. simpl. do 2 f_equal. ring.
Qed.

(** C10: [calc_force_from_spring] returns the same for two arrays of spring
    constants that differ only in the last row, and [calc_force_from_heat]
    returns the same for such constants and for two arrays of sticks that
    differ only in the last column. *)
Theorem last_layer_is_never_read (k k' : ndarray) (sticks sticks' : mat)
    (d_X1 d_X2 : list Qc) :
  same_but_last_row k k' → same_but_last_col sticks sticks' →
  nrows sticks = nrows sticks' →
  calc_force_from_spring d_X1 d_X2 k = calc_force_from_spring d_X1 d_X2 k'
  ∧ calc_force_from_heat sticks k = calc_force_from_heat sticks' k'.
Proof.
  intros Hk [Hc Hs] Hr. split; [by apply same_but_last_row_spring|].
  unfold calc_force_from_heat. rewrite <-Hr, <-Hc.
  by apply same_but_last_heat_columns.
Qed.

Lemma last_layer_is_never_read_witness :
  let k := A2 (matZ 2 [[1; 1]; [10; 7]]%Z) in
  let k' := A2 (matZ 2 [[1; 1]; [-4; 9]]%Z) in
  let sticks := matZ 2 [[1; 2]; [3; 4]]%Z in
  let sticks' := matZ 2 [[1; 8]; [3; 0]]%Z in
  let d_X1 := vec [2; 0]%Z in
  let d_X2 := vec [0; 3]%Z in
  (same_but_last_row k k' ∧ same_but_last_col sticks sticks'
   ∧ nrows sticks = nrows sticks')
  ∧ calc_force_from_spring d_X1 d_X2 k = calc_force_from_spring d_X1 d_X2 k'
  ∧ calc_force_from_heat sticks k = calc_force_from_heat sticks' k'.
Proof.
  cbv zeta.
  assert (H : same_but_last_row (A2 (matZ 2 [[1; 1]; [10; 7]]%Z))
                                (A2 (matZ 2 [[1; 1]; [-4; 9]]%Z))
              ∧ same_but_last_col (matZ 2 [[1; 2]; [3; 4]]%Z)
                                  (matZ 2 [[1; 8]; [3; 0]]%Z)
              ∧ nrows (matZ 2 [[1; 2]; [3; 4]]%Z)
                = nrows (matZ 2 [[1; 8]; [3; 0]]%Z)).
  { split_and!; [|split; [reflexivity|repeat constructor]|reflexivity].
    exists 2%nat, 2%nat. simpl.
    split_and!; [repeat constructor|reflexivity|reflexivity
                |repeat constructor|reflexivity|reflexivity|reflexivity]. }
  split; [exact H|].
  destruct H as (H1 & H2 & H3).
  exact (last_layer_is_never_read _ _ _ _ _ _ H1 H2 H3).
Defined.

(* ===================================================================== *)
(** * The right-hand side of the equations of motion: results *)
(* ===================================================================== *)

Section ode_facts.

Lemma zip_with_comm {A B} (f : A → A → B) (a b : list A) :
  (∀ x y, f x y = f y x) → zip_with f a b = zip_with f b a.
Proof.
  intros Hf. revert b. induction a as [|x a IH]; intros [|y b]; simpl; [done..|].
  by rewrite Hf, IH.
Qed.

Lemma col_wf i m :
  wf_mat m → (i < ncols m)%nat →
  ∃ c, col i m = Some c ∧ length c = nrows m.
Proof.
  intros Hm Hi. unfold col. rewrite decide_True by done.
  destruct (mapM (λ row : list Qc, row !! i) (rows m)) as [c|] eqn:Hc.
  - exists c. split; [done|]. symmetry. by eapply length_mapM.
  - exfalso. apply mapM_None in Hc. apply Exists_exists in Hc as (r & Hr & Hnone).
    apply lookup_ge_None in Hnone.
    pose proof (proj1 (Forall_forall _ _) Hm r Hr) as Hlen. simpl in Hlen. lia.
Qed.

(** The two slice assignments that fill [X_prime]. *)
Lemma set_slice_tail L acc :
  length acc = L → set_slice L (2 * L) acc (zeros (2 * L)) = Some (zeros L ++ acc).
Proof.
  intros Hacc. unfold set_slice, zeros.
  rewrite length_replicate, Nat.min_id.
  rewrite assign_to_same by lia. bind_step.
  rewrite take_replicate, drop_replicate.
  replace (2 * L - L `max` (2 * L))%nat with 0%nat by lia.
  replace (L `min` (2 * L))%nat with L by lia.
  cbn [replicate]. by rewrite app_nil_r.
Qed.

Lemma set_slice_head L acc v :
  length v = L → set_slice 0 L v (zeros L ++ acc) = Some (v ++ acc).
Proof.
  intros Hv. unfold set_slice, zeros.
  rewrite length_app, length_replicate.
  replace (L `min` (L + length acc))%nat with L by lia.
  rewrite assign_to_same by lia. bind_step.
  rewrite Nat.max_0_l, drop_app_length' by by rewrite length_replicate. done.
Qed.

Lemma length_forward_diff x : (1 ≤ length x)%nat →
  length (diff x 1 ++ [0]) = length x.
Proof. intros Hx. unfold diff. simpl. rewrite length_app, length_diff1. simpl. lia. Qed.

Lemma length_backward_diff x : (1 ≤ length x)%nat →
  length (0 :: diff x 1) = length x.
Proof. intros Hx. unfold diff. simpl. rewrite length_diff1. lia. Qed.

End ode_facts.

(** C1, as stated, fails: for two layers with the displacements [(0, 1)], at
    rest, with the spring constants [(1, 10)], unit masses, no damping and no
    heat force, the code returns the derivative [(0, 0, 1, -1)].  The spring
    force of [leftDiff = (0, 1)] and [rightDiff = (-1, 0)] is [(0, 0)],
    [(-1, -1)] with the two arguments exchanged and [(-10, -10)] by the
    formula of section 4.1, none of them the [(1, -1)] of the code; the
    derivative the specification describes is [(0, 0, 0, 0)]. *)
Lemma ode_func_is_not_spec_derivative :
  let X := vec [0; 1; 0; 0]%Z in
  let delays := vec [0]%Z in
  let force_from_heat := matZ 1 [[0]; [0]]%Z in
  let damping := vec [0; 0]%Z in
  let k := A1 (vec [1; 10]%Z) in
  let masses := vec [1; 1]%Z in
  let t : Qc := 0 in
  fst <$> ode_func Spec.sampleAt numpy_float64 t X delays force_from_heat
                   damping k masses 2 None None
  = Some (vec [0; 0; 1; -1]%Z)
  ∧ Spec.leftDiff (take 2 X) = vec [0; 1]%Z
  ∧ Spec.rightDiff (take 2 X) = vec [-1; 0]%Z
  ∧ calc_force_from_spring (vec [0; 1]%Z) (vec [-1; 0]%Z) k = Some (vec [0; 0]%Z)
  ∧ calc_force_from_spring (vec [-1; 0]%Z) (vec [0; 1]%Z) k = Some (vec [-1; -1]%Z)
  ∧ Spec.springForce (vec [0; 1]%Z) (vec [-1; 0]%Z) k = vec [-10; -10]%Z
  ∧ Spec.state_derivative (Spec.sampleAt t delays) X force_from_heat damping k
                          masses 2
    = Some (vec [0; 0; 0; 0]%Z)
  ∧ fst <$> ode_func Spec.sampleAt numpy_float64 t X delays force_from_heat
                     damping k masses 2 None None
    ≠ Spec.state_derivative (Spec.sampleAt t delays) X force_from_heat damping k
                            masses 2.
Proof. cbv zeta. split_and!; compute_done. Qed.

(** C1, amended: for [L >= 1] layers, a state [X] of length [2 L] and every
    time [t] whose sample the heat-force array has, [ode_func] returns the
    last [L] entries of [X] followed by
    [(f_spring + f_damp + f_heat) / masses], elementwise, where [f_damp] is
    [calc_force_from_damping] of the velocities, [f_heat] is the column of
    the heat-force array that [finderb] selects for [t], and [f_spring] is
    [calc_force_from_spring] called with, first, the forward differences
    [x_{i+1} - x_i] of the displacements (zero for the last layer) and,
    second, the backward differences [x_i - x_{i-1}] (zero for layer 0).
    The progress bar and [state] come back as the progress branch leaves
    them; where that branch raises, which it never does without a progress
    bar, [ode_func] raises. *)
Theorem ode_func_derivative (finderb : Qc → list Qc → nat) (t : Qc)
    (X delays : list Qc) (force_from_heat : mat) (damping : list Qc)
    (k : ndarray) (masses : list Qc) (L M : nat) (floats : float_kind)
    (pbar : option tqdm) (state : option (list Qc)) :
  (1 ≤ L)%nat → length X = (2 * L)%nat →
  length damping = L → length masses = L → layer_aligned L M k →
  wf_mat force_from_heat → nrows force_from_heat = L →
  (finderb t delays < ncols force_from_heat)%nat →
  let x := take L X in
  let v := drop L X in
  let forward := diff x 1 ++ [0] in
  let backward := 0 :: diff x 1 in
  ∃ f_spring f_damp f_heat,
    calc_force_from_spring forward backward k = Some f_spring
    ∧ calc_force_from_damping v damping masses = Some f_damp
    ∧ col (finderb t delays) force_from_heat = Some f_heat
    ∧ length v = L ∧ length f_spring = L ∧ length f_damp = L ∧ length f_heat = L
    ∧ ode_func finderb floats t X delays force_from_heat damping k masses L
               pbar state
      = (λ shown,
           (v ++ zip_with Qcdiv
                   (zip_with Qcplus (zip_with Qcplus f_spring f_damp) f_heat)
                   masses,
            shown)) <$> progress_step floats t pbar state
    ∧ forward !! (L - 1)%nat = Some 0
    ∧ backward !! 0%nat = Some 0
    ∧ ∀ i xi xj, x !! i = Some xi → x !! Datatypes.S i = Some xj →
        forward !! i = Some (xj - xi) ∧ backward !! Datatypes.S i = Some (xj - xi).
Proof.
  intros HL HX Hd Hm Hk Hwf Hr Hidx x v forward backward.
  assert (Hx : length x = L) by (unfold x; rewrite length_take; lia).
  assert (Hv : length v = L) by (unfold v; rewrite length_drop; lia).
  assert (Hfw : length forward = L).
  { unfold forward. rewrite length_forward_diff; lia. }
  assert (Hbw : length backward = L).
  { unfold backward. rewrite length_backward_diff; lia. }
  destruct (col_wf _ _ Hwf Hidx) as (f_heat & Hcol & Hlen_heat).
  pose proof (calc_force_from_spring_closed L M k forward backward Hk HL Hfw Hbw)
    as Hspring.
  pose proof (calc_force_from_damping_value v damping masses) as Hdamp.
  rewrite Hd, Hm, Hv in Hdamp. specialize (Hdamp eq_refl eq_refl).
  pose proof (length_spring_closed L M k forward backward Hk HL Hfw Hbw) as Hls.
  assert (Hld : length (zip_with Qcmult (zip_with Qcmult masses damping) v) = L).
  { rewrite !length_zip_with. lia. }
  eexists _, _, f_heat.
  split_and!; [exact Hspring|exact Hdamp|exact Hcol|exact Hv|exact Hls|exact Hld
              |lia| | | |].
  - unfold ode_func. fold x v forward backward.
    destruct (progress_step floats t pbar state) as [shown|]; [|done].
    bind_step. rewrite Hdamp. bind_step. rewrite Hspring. bind_step. rewrite Hcol. bind_step.
    rewrite broadcast_same by lia. bind_step.
    rewrite broadcast_same by (rewrite length_zip_with; lia). bind_step.
    rewrite broadcast_same by (rewrite !length_zip_with; lia). bind_step.
    rewrite set_slice_tail by (rewrite !length_zip_with; lia). bind_step.
    rewrite set_slice_head by done. bind_step.
    cbn [fmap option_fmap option_map].
    do 5 f_equal. apply zip_with_comm. intros a b. ring.
  - unfold forward, diff. simpl.
    rewrite lookup_app_r by (rewrite length_diff1; lia).
    rewrite length_diff1, Hx. by replace (L - 1 - (L - 1))%nat with 0%nat by lia.
  - done.
  - intros i xi xj Hxi Hxj. unfold forward, backward, diff. simpl.
    pose proof (lookup_diff1 _ _ _ _ Hxi Hxj) as Hdiff.
    split; [|done]. by apply lookup_app_l_Some.
Qed.

Lemma ode_func_derivative_witness :
  let X := vec [0; 1; 0; 0]%Z in
  let delays := vec [0]%Z in
  let force_from_heat := matZ 1 [[0]; [0]]%Z in
  let damping := vec [0; 0]%Z in
  let k := A1 (vec [1; 10]%Z) in
  let masses := vec [1; 1]%Z in
  let t : Qc := 0 in
  ((1 ≤ 2)%nat ∧ length X = (2 * 2)%nat ∧ length damping = 2%nat
   ∧ length masses = 2%nat ∧ layer_aligned 2 1 k ∧ wf_mat force_from_heat
   ∧ nrows force_from_heat = 2%nat
   ∧ (Spec.sampleAt t delays < ncols force_from_heat)%nat)
  ∧ ∃ f_spring f_damp f_heat,
      calc_force_from_spring (diff (take 2 X) 1 ++ [0]) (0 :: diff (take 2 X) 1) k
      = Some f_spring
      ∧ calc_force_from_damping (drop 2 X) damping masses = Some f_damp
      ∧ col (Spec.sampleAt t delays) force_from_heat = Some f_heat
      ∧ ode_func Spec.sampleAt numpy_float64 t X delays force_from_heat damping
                 k masses 2 None None
        = Some (drop 2 X ++ zip_with Qcdiv
                  (zip_with Qcplus (zip_with Qcplus f_spring f_damp) f_heat)
                  masses, (None, None)).
Proof.
  cbv zeta.
  assert (H : (1 ≤ 2)%nat ∧ length (vec [0; 1; 0; 0]%Z) = (2 * 2)%nat
              ∧ length (vec [0; 0]%Z) = 2%nat ∧ length (vec [1; 1]%Z) = 2%nat
              ∧ layer_aligned 2 1 (A1 (vec [1; 10]%Z))
              ∧ wf_mat (matZ 1 [[0]; [0]]%Z)
              ∧ nrows (matZ 1 [[0]; [0]]%Z) = 2%nat
              ∧ (Spec.sampleAt 0 (vec [0]%Z) < ncols (matZ 1 [[0]; [0]]%Z))%nat).
  { split_and!; [lia|reflexivity|reflexivity|reflexivity| |repeat constructor
                |reflexivity|vm_compute; lia].
    simpl. split; reflexivity. }
  split; [exact H|].
  destruct H as (H1 & H2 & H3 & H4 & H5 & H6 & H7 & H8).
  destruct (ode_func_derivative Spec.sampleAt 0 _ _ _ _ _ _ 2 1 numpy_float64
              None None H1 H2 H3 H4 H5 H6 H7 H8)
    as (f_spring & f_damp & f_heat & E1 & E2 & E3 & _ & _ & _ & _ & E4 & _).
  exists f_spring, f_damp, f_heat. exact (conj E1 (conj E2 (conj E3 E4))).
Defined.

(* ===================================================================== *)
(** * The strain map and its cache: results *)
(* ===================================================================== *)

Section strain_map_facts.
Context `{Collaborators}.

Lemma bind_run {A B} (m : M A) (k : A → M B) w :
  (m ≫= k) w = match m w with
               | (Ok a, w') => k a w'
               | (Raise e, w') => (Raise e, w')
               end.
Proof. done. Qed.

Lemma zip_with_replicate_rows (f : Qc → Qc → Qc) (rs : list (list Qc)) n th :
  length rs = n →
  zip_with (zip_with f) rs (replicate n th) = (λ r, zip_with f r th) <$> rs.
Proof.
  intros <-. induction rs as [|r rs IH]; [done|]. csimpl. by rewrite IH.
Qed.

(** Dividing every row of an array by a vector of its width. *)
Lemma divide_by_tile m th :
  wf_mat m → ncols m = length th →
  broadcast2 Qcdiv m (tile th (nrows m))
  = Some (Mat (ncols m) ((λ r, zip_with Qcdiv r th) <$> rows m)).
Proof.
  intros Hm Hc. unfold tile.
  rewrite broadcast2_same; cbn [ncols rows]; [|done| | |done].
  - by rewrite zip_with_replicate_rows.
  - unfold wf_mat. cbn [rows ncols]. by apply Forall_replicate.
  - unfold nrows at 2. cbn [rows]. by rewrite length_replicate.
Qed.

Lemma transpose_row c rs t :
  (t < c)%nat →
  rows (transpose (Mat c rs)) !! t
  = Some ((λ r : list Qc, default 0 (r !! t)) <$> rs).
Proof.
  intros Ht. unfold transpose. cbn [rows ncols].
  by rewrite list_lookup_fmap, lookup_seq_lt.
Qed.

Lemma entry_transpose c rs t i r a :
  (t < c)%nat → rs !! i = Some r → r !! t = Some a →
  entry (transpose (Mat c rs)) t i = Some a.
Proof.
  intros Ht Hr Ha. unfold entry. rewrite transpose_row by done. simpl.
  by rewrite list_lookup_fmap, Hr; simpl; rewrite Ha.
Qed.

Lemma shape_transpose c rs : shape (A2 (transpose (Mat c rs))) = [c; length rs].
Proof.
  unfold shape, transpose, nrows. cbn [rows ncols].
  by rewrite length_fmap, length_seq.
Qed.

Lemma wf_entry m i t :
  wf_mat m → (i < nrows m)%nat → (t < ncols m)%nat →
  ∃ r a, rows m !! i = Some r ∧ r !! t = Some a ∧ entry m i t = Some a.
Proof.
  intros Hm Hi Ht.
  destruct (lookup_lt_is_Some_2 (rows m) i Hi) as [r Hr].
  pose proof (Forall_lookup_1 _ _ _ _ Hm Hr) as Hlen. simpl in Hlen.
  destruct (lookup_lt_is_Some_2 r t) as [a Ha]; [lia|].
  exists r, a. unfold entry. by rewrite Hr; simpl.
Qed.

End strain_map_facts.

(** C5: in heat-only mode [calc_strain_map] returns the strain map
    [sticks / thickness], elementwise and of the shape [[T, L]] of the
    sticks, together with a velocity map of the same shape that is zero
    everywhere, and it does not call the ODE integrator. *)
Theorem heat_only_strain_map `{Collaborators} (self : simulation)
    (delays : list Qc) (temp_map delta_temp_map temp_map' delta_temp_map' : TempMap)
    (sticks : mat) (sticks_sub_systems : SubSticks) (L T : nat) (w : world) :
  only_heat self = true →
  check_temp_maps temp_map delta_temp_map delays
  = Some (temp_map', delta_temp_map') →
  calc_sticks_from_temp_map self temp_map' delta_temp_map'
  = Some (sticks, sticks_sub_systems) →
  wf_mat sticks → nrows sticks = T → ncols sticks = L →
  length (thickness (S self)) = L →
  ∃ strain_map velocities w',
    calc_strain_map self delays temp_map delta_temp_map w
    = (Ok (strain_map, sticks_sub_systems, velocities), w')
    ∧ ode_runs w' = ode_runs w ∧ files w' = files w
    ∧ shape (A2 strain_map) = [T; L]
    ∧ (∀ t i s th, entry sticks t i = Some s → thickness (S self) !! i = Some th →
         entry strain_map t i = Some (s / th))
    ∧ velocities = zeros2 T L.
Proof.
  intros Hheat Hcheck Hsticks Hwf HT HL Hth.
  eexists _, _, _. split_and!.
  - unfold calc_strain_map. rewrite bind_run, Hcheck. cbn [lift ret].
    rewrite bind_run. cbn [disp_message].
    rewrite bind_run, Hsticks. cbn [lift ret].
    rewrite Hheat, bind_run, bind_run, divide_by_tile by congruence.
    cbn [lift ret]. rewrite bind_run. cbn [disp_message]. reflexivity.
  - done.
  - done.
  - unfold shape, nrows. cbn [rows ncols]. rewrite length_fmap, HL.
    unfold nrows in HT. by rewrite HT.
  - intros t i s th Hs Hi. unfold entry in *. cbn [rows].
    rewrite list_lookup_fmap.
    destruct (rows sticks !! t) as [row|]; [|done]. simpl in *.
    by rewrite lookup_zip_with, Hs; simpl; rewrite Hi.
  - unfold zeros_like, nrows. cbn [rows ncols]. rewrite length_fmap, HL.
    unfold nrows in HT. by rewrite HT.
Qed.

Lemma heat_only_strain_map_witness :
  let self := Demo.sim true in
  (only_heat self = true
   ∧ check_temp_maps (Collaborators := Demo.collaborators)
                     Demo.sticks Demo.sticks Demo.delays
     = Some (Demo.sticks, Demo.sticks)
   ∧ calc_sticks_from_temp_map (Collaborators := Demo.collaborators)
                               self Demo.sticks Demo.sticks
     = Some (Demo.sticks, ())
   ∧ wf_mat Demo.sticks ∧ nrows Demo.sticks = 4%nat ∧ ncols Demo.sticks = 2%nat
   ∧ length (thickness (S self)) = 2%nat)
  ∧ ∃ strain_map velocities w',
      calc_strain_map (H := Demo.collaborators) self Demo.delays
                      Demo.sticks Demo.sticks Demo.empty_world
      = (Ok (strain_map, (), velocities), w')
      ∧ ode_runs w' = ode_runs Demo.empty_world
      ∧ files w' = files Demo.empty_world
      ∧ shape (A2 strain_map) = [4; 2]%nat
      ∧ (∀ t i s th, entry Demo.sticks t i = Some s →
           thickness (S self) !! i = Some th →
           entry strain_map t i = Some (s / th))
      ∧ velocities = zeros2 4 2.
Proof.
  cbv zeta.
  assert (Hyp : only_heat (Demo.sim true) = true
    ∧ check_temp_maps (Collaborators := Demo.collaborators)
                      Demo.sticks Demo.sticks Demo.delays
      = Some (Demo.sticks, Demo.sticks)
    ∧ calc_sticks_from_temp_map (Collaborators := Demo.collaborators)
                                (Demo.sim true) Demo.sticks Demo.sticks
      = Some (Demo.sticks, ())
    ∧ wf_mat Demo.sticks ∧ nrows Demo.sticks = 4%nat
    ∧ ncols Demo.sticks = 2%nat
    ∧ length (thickness (S (Demo.sim true))) = 2%nat).
  { split_and!; [reflexivity|reflexivity|reflexivity|repeat constructor
                |reflexivity|reflexivity|reflexivity]. }
  split; [exact Hyp|].
  destruct Hyp as (H1 & H2 & H3 & H4 & H5 & H6 & H7).
  exact (heat_only_strain_map (H := Demo.collaborators) _ _ _ _ _ _ _ _ 2 4
           Demo.empty_world H1 H2 H3 H4 H5 H6 H7).
Defined.

(** C6: in dynamic mode [calc_strain_map] calls the ODE integrator once, on
    the span from the first to the last delay and from the zero state of
    length [2 L]; for the trajectory [y] of shape [[2 L, T]] that the
    integrator returns, the strain map has the shape [[T, L - 1]] with the
    entries [(y[i+1, t] - y[i, t]) / thickness_i], and the velocity map has
    the shape [[T, L]] with the entries [y[L + i, t]]. *)
Theorem dynamic_strain_map `{Collaborators} (self : simulation)
    (delays : list Qc) (temp_map delta_temp_map temp_map' delta_temp_map' : TempMap)
    (sticks : mat) (sticks_sub_systems : SubSticks) (force_from_heat y : mat)
    (first final : Qc) (L T : nat) (w : world) :
  only_heat self = false →
  get_number_of_layers (S self) = L → length (thickness (S self)) = L →
  check_temp_maps temp_map delta_temp_map delays
  = Some (temp_map', delta_temp_map') →
  calc_sticks_from_temp_map self temp_map' delta_temp_map'
  = Some (sticks, sticks_sub_systems) →
  calc_force_from_heat sticks (spring_const (S self)) = Some force_from_heat →
  length delays = T → delays !! 0%nat = Some first →
  delays !! (T - 1)%nat = Some final →
  solve_ivp
    (λ t X, fst <$> ode_func finderb numpy_float64 t X delays force_from_heat
                       (phonon_damping (S self)) (spring_const (S self))
                       (mass_unit_area (S self)) L
                       (if progress_bar self
                        then Some (Tqdm 0 (Some (first * ps)))
                        else None)
                       (if progress_bar self
                        then Some [first;
                                   absolute (final - first) / Qc_of_Z 100]
                        else None))
    (first, final) (zeros (2 * L)) delays (options self) = Some y →
  wf_mat y → nrows y = (2 * L)%nat → ncols y = T →
  ∃ strain_map velocities w',
    calc_strain_map self delays temp_map delta_temp_map w
    = (Ok (strain_map, sticks_sub_systems, velocities), w')
    ∧ ode_runs w' = ode_runs w ++ [OdeRun (first, final) (zeros (2 * L))]
    ∧ files w' = files w
    ∧ shape (A2 strain_map) = [T; (L - 1)%nat]
    ∧ shape (A2 velocities) = [T; L]
    ∧ (∀ t i, (t < T)%nat → (Datatypes.S i < L)%nat →
         ∃ a b th, entry y i t = Some a ∧ entry y (Datatypes.S i) t = Some b
                   ∧ thickness (S self) !! i = Some th
                   ∧ entry strain_map t i = Some ((b - a) / th))
    ∧ (∀ t i, (t < T)%nat → (i < L)%nat →
         ∃ a, entry y (L + i) t = Some a ∧ entry velocities t i = Some a).
Proof.
  intros Hdyn HL Hth Hcheck Hsticks Hheat HT Hfirst Hfinal Hsolve Hwf Hrows Hcols.
  set (temp := diff_rows (transpose (Mat (ncols y) (take L (rows y))))).
  assert (Htake : length (take L (rows y)) = L).
  { rewrite length_take. unfold nrows in Hrows. lia. }
  assert (Hdrop : length (drop L (rows y)) = L).
  { rewrite length_drop. unfold nrows in Hrows. lia. }
  assert (Htemp_wf : wf_mat temp).
  { unfold temp, diff_rows, wf_mat, transpose, nrows. cbn [rows ncols].
    rewrite Htake. apply Forall_fmap, Forall_fmap, Forall_true. intros j. simpl.
    by rewrite length_diff1, length_fmap, Htake. }
  assert (Htemp_cols : ncols temp = length (but_last (thickness (S self)))).
  { unfold temp, diff_rows, transpose, nrows. cbn [rows ncols].
    by rewrite length_but_last, Htake, Hth. }
  eexists _, _, _. split_and!.
  - unfold calc_strain_map. rewrite bind_run, Hcheck. cbn [lift ret].
    rewrite bind_run. cbn [disp_message].
    rewrite bind_run, Hsticks. cbn [lift ret].
    rewrite Hdyn, bind_run, bind_run. cbn [disp_message].
    rewrite bind_run, HL, Hheat. cbn [lift ret].
    rewrite bind_run, Hfirst. cbn [lift ret].
    rewrite bind_run, HT, Hfinal. cbn [lift ret].
    rewrite bind_run. unfold run_solver. rewrite Hsolve.
    fold temp. rewrite bind_run, (divide_by_tile temp) by done. cbn [lift ret].
    rewrite bind_run. cbn [disp_message]. reflexivity.
  - done.
  - done.
  - unfold shape, nrows. cbn [rows ncols]. rewrite length_fmap.
    unfold temp, diff_rows, transpose, nrows. cbn [rows ncols].
    by rewrite !length_fmap, length_seq, Htake, Hcols.
  - by rewrite shape_transpose, Hdrop, Hcols.
  - intros t i Ht Hi.
    destruct (wf_entry y i t Hwf) as (ri & a & Hri & Ha & Hea); [lia..|].
    destruct (wf_entry y (Datatypes.S i) t Hwf) as (rj & b & Hrj & Hb & Heb); [lia..|].
    destruct (lookup_lt_is_Some_2 (thickness (S self)) i) as [th Hthi]; [lia|].
    exists a, b, th. split_and!; [done..|].
    unfold entry. cbn [rows]. rewrite list_lookup_fmap.
    unfold temp, diff_rows. cbn [rows]. rewrite list_lookup_fmap.
    rewrite transpose_row by lia. simpl.
    rewrite lookup_zip_with.
    rewrite (lookup_diff1 _ i a b).
    + simpl. unfold but_last. rewrite lookup_take_lt by lia. by rewrite Hthi.
    + by rewrite list_lookup_fmap, lookup_take_lt, Hri by lia; simpl; rewrite Ha.
    + by rewrite list_lookup_fmap, lookup_take_lt, Hrj by lia; simpl; rewrite Hb.
  - intros t i Ht Hi.
    destruct (wf_entry y (L + i) t Hwf) as (r & a & Hr & Ha & Hea); [lia..|].
    exists a. split; [done|].
    apply (entry_transpose _ _ _ _ r); [lia| |done].
    by rewrite lookup_drop.
Qed.

Lemma dynamic_strain_map_witness :
  let self := Demo.sim false in
  let first := Qc_of_Z 0 in
  let final := Qc_of_Z 3 in
  (only_heat self = false
   ∧ get_number_of_layers (S self) = 2%nat
   ∧ length (thickness (S self)) = 2%nat
   ∧ check_temp_maps (Collaborators := Demo.collaborators)
                     Demo.sticks Demo.sticks Demo.delays
     = Some (Demo.sticks, Demo.sticks)
   ∧ calc_sticks_from_temp_map (Collaborators := Demo.collaborators)
                               self Demo.sticks Demo.sticks
     = Some (Demo.sticks, ())
   ∧ calc_force_from_heat Demo.sticks (spring_const (S self))
     = Some Demo.force_from_heat
   ∧ length Demo.delays = 4%nat
   ∧ Demo.delays !! 0%nat = Some first
   ∧ Demo.delays !! (4 - 1)%nat = Some final
   ∧ solve_ivp (Collaborators := Demo.collaborators)
       (λ t X, fst <$> ode_func (finderb (Collaborators := Demo.collaborators))
                          numpy_float64
                          t X Demo.delays Demo.force_from_heat
                          (phonon_damping (S self)) (spring_const (S self))
                          (mass_unit_area (S self)) 2
                          (if progress_bar self
                           then Some (Tqdm 0 (Some (first * ps)))
                           else None)
                          (if progress_bar self
                           then Some [first;
                                      absolute (final - first) / Qc_of_Z 100]
                           else None))
       (first, final) (zeros (2 * 2)) Demo.delays (options self)
     = Some Demo.trajectory
   ∧ wf_mat Demo.trajectory
   ∧ nrows Demo.trajectory = (2 * 2)%nat
   ∧ ncols Demo.trajectory = 4%nat)
  ∧ ∃ strain_map velocities w',
      calc_strain_map (H := Demo.collaborators) self Demo.delays
                      Demo.sticks Demo.sticks Demo.empty_world
      = (Ok (strain_map, (), velocities), w')
      ∧ ode_runs w'
        = ode_runs Demo.empty_world ++ [OdeRun (first, final) (zeros (2 * 2))]
      ∧ files w' = files Demo.empty_world
      ∧ shape (A2 strain_map) = [4; (2 - 1)]%nat
      ∧ shape (A2 velocities) = [4; 2]%nat
      ∧ (∀ t i, (t < 4)%nat → (Datatypes.S i < 2)%nat →
           ∃ a b th, entry Demo.trajectory i t = Some a
                     ∧ entry Demo.trajectory (Datatypes.S i) t = Some b
                     ∧ thickness (S self) !! i = Some th
                     ∧ entry strain_map t i = Some ((b - a) / th))
      ∧ (∀ t i, (t < 4)%nat → (i < 2)%nat →
           ∃ a, entry Demo.trajectory (2 + i) t = Some a
                ∧ entry velocities t i = Some a).
Proof.
  cbv zeta.
  assert (H1 : only_heat (Demo.sim false) = false) by reflexivity.
  assert (H2 : get_number_of_layers (S (Demo.sim false)) = 2%nat) by reflexivity.
  assert (H3 : length (thickness (S (Demo.sim false))) = 2%nat) by reflexivity.
  assert (H4 : check_temp_maps (Collaborators := Demo.collaborators)
                 Demo.sticks Demo.sticks Demo.delays
               = Some (Demo.sticks, Demo.sticks)) by reflexivity.
  assert (H5 : calc_sticks_from_temp_map (Collaborators := Demo.collaborators)
                 (Demo.sim false) Demo.sticks Demo.sticks
               = Some (Demo.sticks, ())) by reflexivity.
  assert (H6 : calc_force_from_heat Demo.sticks
                 (spring_const (S (Demo.sim false)))
               = Some Demo.force_from_heat) by compute_done.
  assert (H7 : length Demo.delays = 4%nat) by reflexivity.
  assert (H8 : Demo.delays !! 0%nat = Some (Qc_of_Z 0)) by reflexivity.
  assert (H9 : Demo.delays !! (4 - 1)%nat = Some (Qc_of_Z 3)) by reflexivity.
  assert (H10 : solve_ivp (Collaborators := Demo.collaborators)
       (λ t X, fst <$> ode_func (finderb (Collaborators := Demo.collaborators))
                          numpy_float64
                          t X Demo.delays Demo.force_from_heat
                          (phonon_damping (S (Demo.sim false)))
                          (spring_const (S (Demo.sim false)))
                          (mass_unit_area (S (Demo.sim false))) 2
                          (if progress_bar (Demo.sim false)
                           then Some (Tqdm 0 (Some (Qc_of_Z 0 * ps)))
                           else None)
                          (if progress_bar (Demo.sim false)
                           then Some [Qc_of_Z 0;
                                      absolute (Qc_of_Z 3 - Qc_of_Z 0)
                                      / Qc_of_Z 100]
                           else None))
       (Qc_of_Z 0, Qc_of_Z 3) (zeros (2 * 2)) Demo.delays
       (options (Demo.sim false))
     = Some Demo.trajectory) by compute_done.
  assert (H11 : wf_mat Demo.trajectory) by repeat constructor.
  assert (H12 : nrows Demo.trajectory = (2 * 2)%nat) by reflexivity.
  assert (H13 : ncols Demo.trajectory = 4%nat) by reflexivity.
  split; [exact (conj H1 (conj H2 (conj H3 (conj H4 (conj H5 (conj H6 (conj H7
            (conj H8 (conj H9 (conj H10 (conj H11 (conj H12 H13))))))))))))|].
  exact (dynamic_strain_map (H := Demo.collaborators) (Demo.sim false)
           Demo.delays Demo.sticks Demo.sticks Demo.sticks Demo.sticks
           Demo.sticks () Demo.force_from_heat Demo.trajectory
           (Qc_of_Z 0) (Qc_of_Z 3) 2 4 Demo.empty_world
           H1 H2 H3 H4 H5 H6 H7 H8 H9 H10 H11 H12 H13).
Defined.

(** C7: when recalculation is not forced and a call of [get_strain_map]
    has returned a strain map, a second call with the same inputs returns
    the same array, read from the cache: the files are left as they are and
    the ODE integrator is not called; only a message is issued. *)
Theorem cached_strain_map_is_reused `{Collaborators} (self : simulation)
    (delays : list Qc) (temp_map delta_temp_map : TempMap)
    (w w1 : world) (strain_map : mat) :
  force_recalc self = false →
  get_strain_map self delays temp_map delta_temp_map w = (Ok strain_map, w1) →
  ∃ msg,
    get_strain_map self delays temp_map delta_temp_map w1
    = (Ok strain_map, World (files w1) (messages w1 ++ [msg]) (ode_runs w1)).
Proof.
  intros Hforce Hfirst. unfold get_strain_map in *.
  set (filename := "strain_map_num_"
                   +:+ get_hash self delays temp_map delta_temp_map +:+ ".npy") in *.
  set (full_filename := abspath_join (cache_dir self) filename) in *.
  assert (Hhit : ∀ w0, files w0 !! full_filename = Some (Npy strain_map) →
    (found ← path_exists full_filename;
     if found && negb (force_recalc self)
     then strain_map ← np_load full_filename;
          disp_message ("_strain_map_ loaded from file:" +:+ newline_tab
                        +:+ filename);;
          mret strain_map
     else '(strain_map, _, _) ← calc_strain_map self delays temp_map
                                                  delta_temp_map;
          save full_filename [strain_map] "_strain_map_num_";;
          mret strain_map) w0
    = (Ok strain_map,
       World (files w0)
             (messages w0 ++ ["_strain_map_ loaded from file:" +:+ newline_tab
                              +:+ filename])
             (ode_runs w0))).
  { intros w0 Hfile. rewrite bind_run. unfold path_exists.
    rewrite Hfile, bool_decide_eq_true_2, Hforce by eauto. cbn [andb negb].
    rewrite bind_run. unfold np_load. by rewrite Hfile. }
  eexists. apply Hhit.
  rewrite bind_run in Hfirst. unfold path_exists in Hfirst.
  destruct (files w !! full_filename) as [f|] eqn:Hfile.
  - rewrite bool_decide_eq_true_2, Hforce in Hfirst by eauto.
    cbn [andb negb] in Hfirst.
    rewrite bind_run in Hfirst. unfold np_load in Hfirst. rewrite Hfile in Hfirst.
    destruct f as [data|]; [|done].
    rewrite bind_run in Hfirst. cbn [disp_message] in Hfirst.
    injection Hfirst as <- <-. done.
  - rewrite bool_decide_eq_false_2 in Hfirst by (intros [? ?]; done).
    cbn [andb] in Hfirst. rewrite bind_run in Hfirst.
    destruct (calc_strain_map self delays temp_map delta_temp_map w)
      as [[[[sm subs] vel]|e] w'] eqn:Hcalc; [|done].
    rewrite bind_run in Hfirst. cbn [save] in Hfirst.
    injection Hfirst as <- <-. cbn [files]. apply lookup_insert_eq.
Qed.

Lemma cached_strain_map_is_reused_witness :
  (force_recalc (Demo.sim false) = false
   ∧ get_strain_map (H := Demo.collaborators) (Demo.sim false) Demo.delays
                    Demo.sticks Demo.sticks Demo.empty_world
     = (Ok Demo.strain_map, Demo.after_first_call))
  ∧ ∃ msg,
      get_strain_map (H := Demo.collaborators) (Demo.sim false) Demo.delays
                     Demo.sticks Demo.sticks Demo.after_first_call
      = (Ok Demo.strain_map,
         World (files Demo.after_first_call)
               (messages Demo.after_first_call ++ [msg])
               (ode_runs Demo.after_first_call)).
Proof.
  assert (H1 : force_recalc (Demo.sim false) = false) by reflexivity.
  assert (H2 : get_strain_map (H := Demo.collaborators) (Demo.sim false)
                 Demo.delays Demo.sticks Demo.sticks Demo.empty_world
               = (Ok Demo.strain_map, Demo.after_first_call)) by compute_done.
  split; [exact (conj H1 H2)|].
  exact (cached_strain_map_is_reused (H := Demo.collaborators) (Demo.sim false)
           Demo.delays Demo.sticks Demo.sticks Demo.empty_world
           Demo.after_first_call Demo.strain_map H1 H2).
Defined.

(** C8, as stated, fails: with an unreadable file under the cache key,
    [get_strain_map] ends with the error of [np.load]; it issues no message,
    does not call the integrator and writes no file, although the
    recalculation on the same inputs would return a strain map. *)
Lemma unreadable_cache_is_no_cache_miss :
  get_strain_map (H := Demo.collaborators) (Demo.sim false) Demo.delays
                 Demo.sticks Demo.sticks Demo.broken_cache
  = (Raise LoadError, Demo.broken_cache)
  ∧ fst (calc_strain_map (H := Demo.collaborators) (Demo.sim false) Demo.delays
                         Demo.sticks Demo.sticks Demo.broken_cache)
    = Ok (Demo.strain_map, (), Demo.velocities).
Proof. split; compute_done. Qed.

(** C8, amended: when recalculation is not forced and the file under the
    computed cache key exists but cannot be read, [get_strain_map] passes the
    error of [np.load] on to its caller: nothing is recalculated and the
    world is left as it was. *)
Theorem unreadable_cache_is_propagated `{Collaborators} (self : simulation)
    (delays : list Qc) (temp_map delta_temp_map : TempMap) (w : world) :
  force_recalc self = false →
  files w !! abspath_join (cache_dir self)
               ("strain_map_num_"
                +:+ get_hash self delays temp_map delta_temp_map +:+ ".npy")
  = Some Unreadable →
  get_strain_map self delays temp_map delta_temp_map w = (Raise LoadError, w).
Proof.
  intros Hforce Hfile. unfold get_strain_map.
  rewrite bind_run. unfold path_exists.
  rewrite Hfile, bool_decide_eq_true_2, Hforce by eauto. cbn [andb negb].
  rewrite bind_run. unfold np_load. by rewrite Hfile.
Qed.

Lemma unreadable_cache_is_propagated_witness :
  (force_recalc (Demo.sim false) = false
   ∧ files Demo.broken_cache
       !! abspath_join (Collaborators := Demo.collaborators)
            (cache_dir (Demo.sim false))
            ("strain_map_num_"
             +:+ get_hash (Collaborators := Demo.collaborators) (Demo.sim false)
                          Demo.delays Demo.sticks Demo.sticks +:+ ".npy")
     = Some Unreadable)
  ∧ get_strain_map (H := Demo.collaborators) (Demo.sim false) Demo.delays
                   Demo.sticks Demo.sticks Demo.broken_cache
    = (Raise LoadError, Demo.broken_cache).
Proof.
  assert (H1 : force_recalc (Demo.sim false) = false) by reflexivity.
  assert (H2 : files Demo.broken_cache
       !! abspath_join (Collaborators := Demo.collaborators)
            (cache_dir (Demo.sim false))
            ("strain_map_num_"
             +:+ get_hash (Collaborators := Demo.collaborators) (Demo.sim false)
                          Demo.delays Demo.sticks Demo.sticks +:+ ".npy")
     = Some Unreadable) by (vm_compute; reflexivity).
  split; [exact (conj H1 H2)|].
  exact (unreadable_cache_is_propagated (H := Demo.collaborators)
           (Demo.sim false) Demo.delays Demo.sticks Demo.sticks
           Demo.broken_cache H1 H2).
Defined.

(* ===================================================================== *)
(** * Further properties of the force model *)
(* ===================================================================== *)

Section balance.

(** The closed form on the differences of a chain: the tension of each
    spring enters the force on its left layer and, negated, the force on
    its right layer. *)
Lemma spring_closed_chain M krows d :
  length krows = Datatypes.S (length d) →
  let tension := zip_with (dot M)
                   ((λ r : list Qc, Qcopp <$> r) <$> but_last krows) d in
  spring_closed M krows (d ++ [0]) (0 :: d)
  = zip_with Qcminus (0 :: tension) (tension ++ [0]).
Proof.
  intros Hlen tension. unfold spring_closed. cbn zeta. f_equal.
  - cbn [zip_with]. by rewrite dot_zeros.
  - rewrite zip_with_app by (rewrite length_fmap, length_but_last; lia).
    cbn [zip_with]. by rewrite dot_zeros.
Qed.

End balance.

(** X3: spring constants given as a vector, one per layer, give the same
    as the same constants given as a matrix of one column: the [IndexError]
    branch and the reshape turn the first into the second.  This holds for
    all arguments, also those on which the function raises. *)
Theorem vector_of_constants_is_a_column (d_X1 d_X2 v : list Qc) :
  calc_force_from_spring d_X1 d_X2 (A1 v)
  = calc_force_from_spring d_X1 d_X2 (A2 (Mat 1 ((λ x, [x]) <$> v))).
Proof.
  unfold calc_force_from_spring.
  change (size (A1 v) 1) with (@None nat).
  change (size (A1 v) 0) with (Some (length v)).
  change (size (A2 (Mat 1 ((λ x, [x]) <$> v))) 1) with (Some 1%nat).
  change (size (A2 (Mat 1 ((λ x, [x]) <$> v))) 0)
    with (Some (nrows (Mat 1 ((λ x : Qc, [x]) <$> v)))).
  cbn [default from_option id]. bind_step.
  rewrite reshape_column.
  rewrite (reshape_same (Mat 1 ((λ x : Qc, [x]) <$> v))); [done|].
  unfold wf_mat. cbn [rows ncols]. apply Forall_fmap, Forall_true. done.
Qed.

(** X4: the second vector of differences must be as long as the first, or
    of length one: for spring constants of order at least one and any other
    length, the assignment [temp2[:, i] = d_X2**(i+1)] raises. *)
Theorem mismatched_differences_raise L M (k : ndarray) (d_X1 d_X2 : list Qc) :
  layer_aligned L M k → (1 ≤ M)%nat →
  length d_X2 ≠ length d_X1 → length d_X2 ≠ 1%nat →
  calc_force_from_spring d_X1 d_X2 k = None.
Proof.
  intros Hk HM Hne H1.
  destruct (layer_aligned_reshape _ _ _ Hk) as (H0 & Hord & Hre).
  unfold calc_force_from_spring. rewrite H0, Hord. bind_step.
  rewrite Hre. bind_step. unfold neg, zeros2. cbn [ncols rows replicate].
  rewrite !vstack_same by done. bind_step.
  destruct M as [|M]; [lia|]. cbn [seq power_columns].
  assert (Hset : set_col 0 ((λ d : Qc, d ^ (0 + 1)) <$> d_X2)
            (Mat (Datatypes.S M)
                 (replicate (length d_X1) (zeros (Datatypes.S M)))) = None).
  { unfold set_col. cbn [ncols rows]. rewrite decide_True by lia.
    unfold nrows. cbn [rows]. rewrite length_replicate.
    unfold assign_to. rewrite length_fmap.
    by rewrite decide_False, decide_False by done. }
  rewrite Hset. clear Hset. by destruct (set_col 0 _ _).
Qed.

Lemma mismatched_differences_raise_witness :
  let k := A1 (vec [1; 10; 4]%Z) in
  let d_X1 := vec [1; 2; 0]%Z in
  let d_X2 := vec [0; 1]%Z in
  (layer_aligned 3 1 k ∧ (1 ≤ 1)%nat ∧ length d_X2 ≠ length d_X1
   ∧ length d_X2 ≠ 1%nat)
  ∧ calc_force_from_spring d_X1 d_X2 k = None.
Proof.
  cbv zeta.
  assert (H : layer_aligned 3 1 (A1 (vec [1; 10; 4]%Z)) ∧ (1 ≤ 1)%nat
              ∧ length (vec [0; 1]%Z) ≠ length (vec [1; 2; 0]%Z)
              ∧ length (vec [0; 1]%Z) ≠ 1%nat).
  { split_and!; [split; reflexivity|lia|simpl; lia|simpl; lia]. }
  split; [exact H|].
  destruct H as (H1 & H2 & H3 & H4).
  exact (mismatched_differences_raise 3 1 _ _ _ H1 H2 H3 H4).
Defined.

(** [ode_func] runs the progress branch first and then computes the
    derivative without looking at the progress bar or [state] again. *)
Lemma ode_func_progress (finderb : Qc → list Qc → nat) floats t X delays
    force_from_heat damping k masses L pbar state :
  fst <$> ode_func finderb floats t X delays force_from_heat damping k masses
                   L pbar state
  = progress_step floats t pbar state
    ≫= λ _, fst <$> ode_func finderb floats t X delays force_from_heat damping
                             k masses L None None.
Proof.
  unfold ode_func. cbn [progress_step].
  destruct (progress_step floats t pbar state) as [shown|]; [|done].
  bind_step.
  repeat match goal with
         | |- context [mbind _ ?o] =>
             match o with
             | Some _ => fail 1
             | _ => destruct o; [bind_step|done]
             end
         end.
  done.
Qed.

(** X5: the progress bar has no part in the derivative.  With a progress
    bar and a list [state] of two numbers, [ode_func] returns the vector it
    returns without them, or raises as it does without them; between
    Python floats this needs [dt] not to be zero.  Without a progress bar,
    [state] is not looked at.  With a progress bar and [state = None], or
    with [dt = 0] between Python floats, [ode_func] raises, whatever the
    other arguments are. *)
Theorem progress_bar_is_observation_only (finderb : Qc → list Qc → nat)
    (floats : float_kind) (t : Qc) (X delays : list Qc)
    (force_from_heat : mat) (damping : list Qc) (k : ndarray)
    (masses : list Qc) (L : nat) (bar : tqdm) (last_t dt : Qc)
    (state : option (list Qc)) :
  floats = numpy_float64 ∨ dt ≠ 0 →
  fst <$> ode_func finderb floats t X delays force_from_heat damping k masses
                   L (Some bar) (Some [last_t; dt])
  = fst <$> ode_func finderb floats t X delays force_from_heat damping k
                     masses L None None
  ∧ fst <$> ode_func finderb floats t X delays force_from_heat damping k
                     masses L None state
    = fst <$> ode_func finderb floats t X delays force_from_heat damping k
                       masses L None None
  ∧ ode_func finderb floats t X delays force_from_heat damping k masses L
             (Some bar) None = None
  ∧ ode_func finderb python_float t X delays force_from_heat damping k masses
             L (Some bar) (Some [last_t; 0]) = None.
Proof.
  intros Hdt. split_and!.
  - rewrite ode_func_progress. cbn [progress_step]. unfold true_divide.
    destruct (decide (dt = 0)) as [Hz|Hnz].
    + destruct Hdt as [->|?]; [|done]. cbn [mbind option_bind].
      destruct (ge_one _); [done|]. by destruct (lt_zero _).
    + cbn [mbind option_bind].
      destruct (ge_one _); [done|]. by destruct (lt_zero _).
  - by rewrite ode_func_progress.
  - done.
  - unfold ode_func. cbn [progress_step]. unfold true_divide.
    by rewrite decide_True.
Qed.

Lemma progress_bar_is_observation_only_witness :
  let X := vec [0; 1; 0; 0]%Z in
  let delays := vec [0; 3]%Z in
  let force_from_heat := matZ 2 [[0; 2]; [0; -2]]%Z in
  let damping := vec [1; 1]%Z in
  let k := A1 (vec [1; 10]%Z) in
  let masses := vec [1; 1]%Z in
  let bar := Tqdm 0 (Some 0) in
  let t : Qc := Qc_of_Z 2 in
  (python_float = numpy_float64 ∨ Qc_of_Z 1 ≠ 0)
  ∧ fst <$> ode_func Spec.sampleAt python_float t X delays force_from_heat
                     damping k masses 2 (Some bar) (Some [0; Qc_of_Z 1])
    = fst <$> ode_func Spec.sampleAt python_float t X delays force_from_heat
                       damping k masses 2 None None
  ∧ ode_func Spec.sampleAt python_float t X delays force_from_heat damping k
             masses 2 (Some bar) (Some [0; Qc_of_Z 1])
    = Some (vec [0; 0; 1; -1]%Z,
            (Some (Tqdm 1 (Some (Qc_of_Z 2 * ps))),
             Some [Qc_of_Z 2; Qc_of_Z 1])).
Proof.
  cbv zeta.
  assert (H : python_float = numpy_float64 ∨ Qc_of_Z 1 ≠ 0).
  { right. compute_done. }
  split; [exact H|]. split; [|compute_done].
  exact (proj1 (progress_bar_is_observation_only Spec.sampleAt python_float
                  (Qc_of_Z 2) (vec [0; 1; 0; 0]%Z) (vec [0; 3]%Z)
                  (matZ 2 [[0; 2]; [0; -2]]%Z) (vec [1; 1]%Z)
                  (A1 (vec [1; 10]%Z)) (vec [1; 1]%Z) 2 (Tqdm 0 (Some 0))
                  0 (Qc_of_Z 1) None H)).
Defined.

(* ===================================================================== *)
(** * Further properties of the equations of motion *)
(* ===================================================================== *)

Section motion.

(** The value of [ode_func], with the forces in the order of the code. *)
Lemma ode_func_closed (finderb : Qc → list Qc → nat) floats t X delays
    force_from_heat damping k masses L M pbar state f_heat :
  (1 ≤ L)%nat → length X = (2 * L)%nat →
  length damping = L → length masses = L → layer_aligned L M k →
  col (finderb t delays) force_from_heat = Some f_heat → length f_heat = L →
  ode_func finderb floats t X delays force_from_heat damping k masses L pbar
           state
  = (λ shown,
       (drop L X ++
        zip_with Qcdiv
          (zip_with Qcplus
             (zip_with Qcplus
                (zip_with Qcmult (zip_with Qcmult masses damping) (drop L X))
                (spring_closed M (consts_rows k)
                               (diff1 (take L X) ++ [0])
                               (0 :: diff1 (take L X))))
             f_heat)
          masses,
        shown)) <$> progress_step floats t pbar state.
Proof.
  intros HL HX Hd Hm Hk Hcol Hheat.
  assert (Hx : length (take L X) = L) by (rewrite length_take; lia).
  assert (Hv : length (drop L X) = L) by (rewrite length_drop; lia).
  assert (Hfw : length (diff1 (take L X) ++ [0]) = L).
  { rewrite length_app, length_diff1. simpl. lia. }
  assert (Hbw : length (0 :: diff1 (take L X)) = L).
  { simpl. rewrite length_diff1. lia. }
  pose proof (length_spring_closed L M k _ _ Hk HL Hfw Hbw) as Hls.
  unfold ode_func.
  destruct (progress_step floats t pbar state) as [shown|]; [|done].
  bind_step.
  rewrite calc_force_from_damping_value by congruence. bind_step.
  change (diff (take L X) 1) with (diff1 (take L X)).
  rewrite (calc_force_from_spring_closed L M) by done. bind_step.
  rewrite Hcol. bind_step.
  rewrite broadcast_same by (rewrite !length_zip_with; lia). bind_step.
  rewrite broadcast_same by (rewrite !length_zip_with; lia). bind_step.
  rewrite broadcast_same by (rewrite !length_zip_with; lia). bind_step.
  rewrite set_slice_tail by (rewrite !length_zip_with; lia). bind_step.
  by rewrite set_slice_head by done.
Qed.

Lemma forward_diff_lookup x i xi :
  x !! i = Some xi →
  (diff1 x ++ [0]) !! i
  = Some (if decide (Datatypes.S i < length x)%nat
          then default 0 (x !! Datatypes.S i) - xi else 0).
Proof.
  intros Hxi. pose proof (lookup_lt_Some _ _ _ Hxi) as Hi. case_decide as HS.
  - destruct (lookup_lt_is_Some_2 x (Datatypes.S i) HS) as [xj Hxj].
    rewrite Hxj. simpl. apply lookup_app_l_Some. by apply lookup_diff1.
  - rewrite lookup_app_r by (rewrite length_diff1; lia).
    rewrite length_diff1. by replace (i - (length x - 1))%nat with 0%nat by lia.
Qed.

Lemma backward_diff_lookup x i xi :
  x !! i = Some xi →
  (0 :: diff1 x) !! i
  = Some match i with
         | O => 0
         | Datatypes.S p => xi - default 0 (x !! p)
         end.
Proof.
  intros Hxi. destruct i as [|p]; [done|].
  destruct (lookup_lt_is_Some_2 x p) as [xp Hxp].
  { apply lookup_lt_Some in Hxi. lia. }
  rewrite Hxp. simpl. by apply lookup_diff1.
Qed.

Lemma diff1_zeros n : diff1 (replicate n 0) = replicate (n - 1) 0.
Proof.
  induction n as [|[|n] IH]; [done..|].
  change (diff1 (replicate (Datatypes.S (Datatypes.S n)) 0))
    with ((0 - 0) :: diff1 (replicate (Datatypes.S n) 0)).
  rewrite IH. simpl. rewrite Nat.sub_0_r. f_equal; ring.
Qed.

Lemma powers_zero M : powers M 0 = replicate M 0.
Proof.
  unfold powers. rewrite <-(fmap_const_seq (0 : Qc) 0 M).
  apply list_fmap_ext. intros _ j _. simpl.
  replace (j + 1)%nat with (Datatypes.S j) by lia. simpl. ring.
Qed.

Lemma dot_at_zero M c : dot M c 0 = 0.
Proof.
  unfold dot. rewrite powers_zero. revert c.
  induction M as [|M IH]; intros [|x c]; simpl; [done..|].
  rewrite IH. ring.
Qed.

Lemma zip_with_zero_r {A} (f : A → Qc → Qc) a n :
  (∀ x, f x 0 = 0) → length a = n →
  zip_with f a (replicate n 0) = replicate n 0.
Proof.
  intros Hf <-. induction a as [|x a IH]; simpl; [done|]. by rewrite Hf, IH.
Qed.

Lemma zip_with_zero_l {B} (f : Qc → B → Qc) b n :
  (∀ y, f 0 y = 0) → length b = n →
  zip_with f (replicate n 0) b = replicate n 0.
Proof.
  intros Hf <-. induction b as [|y b IH]; simpl; [done|]. by rewrite Hf, IH.
Qed.

Lemma spring_closed_at_rest M krows n :
  length krows = Datatypes.S n →
  spring_closed M krows (replicate n 0 ++ [0]) (0 :: replicate n 0)
  = replicate (Datatypes.S n) 0.
Proof.
  intros Hlen. rewrite spring_closed_chain by (rewrite length_replicate; lia).
  cbn zeta. rewrite zip_with_zero_r;
    [|apply dot_at_zero|rewrite length_fmap, length_but_last; lia].
  rewrite <-replicate_cons_app.
  change (0 :: replicate n 0) with (replicate (Datatypes.S n) 0).
  rewrite zip_with_replicate. f_equal; ring.
Qed.

Lemma col_lookup j m c i :
  col j m = Some c → c !! i = (rows m !! i) ≫= (λ r, r !! j).
Proof.
  unfold col. case_decide; [|done]. intros Hc.
  apply mapM_Some_1 in Hc. revert i.
  induction Hc as [|r x rs c Hrx _ IH]; intros [|i]; simpl; [done..|].
  apply IH.
Qed.

End motion.

(** X6: the equation of motion of one layer.  For layer [i] of [L], the
    derivative that [ode_func] returns holds the velocity [v_i] in place [i]
    and, in place [L + i], the acceleration
    [(m_i g_i v_i + Σ_j k_i^j (x_{i+1} - x_i)^j - Σ_j k_{i-1}^j (x_i - x_{i-1})^j
      + h_i) / m_i],
    without the first sum for the last layer and the second for layer 0;
    [h_i] is the sampled heat force and [g_i] the damping.  This is so
    whenever the progress branch does not raise, as always without a
    progress bar; where it raises, [ode_func] raises. *)
Theorem equation_of_motion (finderb : Qc → list Qc → nat) (t : Qc)
    (X delays : list Qc) (force_from_heat : mat) (damping : list Qc)
    (k : ndarray) (masses f_heat : list Qc) (L M : nat)
    (floats : float_kind) (pbar : option tqdm) (state : option (list Qc))
    (i : nat) (xi vi mi gi hi : Qc) :
  length X = (2 * L)%nat → length damping = L → length masses = L →
  layer_aligned L M k →
  col (finderb t delays) force_from_heat = Some f_heat → length f_heat = L →
  (i < L)%nat → X !! i = Some xi → X !! (L + i)%nat = Some vi →
  masses !! i = Some mi → damping !! i = Some gi → f_heat !! i = Some hi →
  ∃ X_prime,
    fst <$> ode_func finderb floats t X delays force_from_heat damping k
                     masses L pbar state
    = (λ _, X_prime) <$> progress_step floats t pbar state
    ∧ X_prime !! i = Some vi
    ∧ X_prime !! (L + i)%nat
      = Some ((mi * gi * vi
               + ((if decide (Datatypes.S i < L)%nat
                   then poly (consts_row k i) (default 0 (X !! Datatypes.S i) - xi)
                   else 0)
                  - match i with
                    | O => 0
                    | Datatypes.S p =>
                        poly (consts_row k p) (xi - default 0 (X !! p))
                    end)
               + hi) / mi).
Proof.
  intros HX Hd Hm Hk Hcol Hheat Hi Hxi Hvi Hmi Hgi Hhi.
  assert (HL : (1 ≤ L)%nat) by lia.
  assert (Hx : length (take L X) = L) by (rewrite length_take; lia).
  assert (Hv : length (drop L X) = L) by (rewrite length_drop; lia).
  assert (Htake : ∀ j, (j < L)%nat → take L X !! j = X !! j).
  { intros j Hj. by apply lookup_take_lt. }
  assert (Hxi' : take L X !! i = Some xi) by (by rewrite Htake).
  eexists. split_and!.
  - rewrite (ode_func_closed _ _ _ _ _ _ _ _ _ L M _ _ f_heat) by done.
    rewrite <-option_fmap_compose. unfold compose. cbn [fst]. reflexivity.
  - rewrite lookup_app_l by lia. by rewrite lookup_drop.
  - rewrite lookup_app_r by lia. rewrite Hv, Nat.add_sub'.
    rewrite !lookup_zip_with, Hmi, Hgi, lookup_drop, Hvi. simpl.
    pose proof (forward_diff_lookup _ _ _ Hxi') as Hfw.
    pose proof (backward_diff_lookup _ _ _ Hxi') as Hbw.
    erewrite (spring_closed_lookup L M k _ _ i); [|exact Hk| | |exact Hfw|exact Hbw].
    + simpl. rewrite Hhi. simpl. rewrite Hx.
      assert (Hnext : (Datatypes.S i < L)%nat →
                take L X !! Datatypes.S i = X !! Datatypes.S i) by apply Htake.
      destruct i as [|p]; repeat case_decide; try lia;
        rewrite ?Hnext, ?(Htake p) by lia; reflexivity.
    + rewrite length_app, length_diff1. simpl. lia.
    + simpl. rewrite length_diff1. lia.
Qed.

Lemma equation_of_motion_witness :
  let X := vec [0; 1; 3; 5; 6; 7]%Z in
  let delays := vec [0]%Z in
  let force_from_heat := matZ 1 [[2]; [-3]; [1]]%Z in
  let damping := vec [1; 2; 3]%Z in
  let k := A1 (vec [1; 10; 4]%Z) in
  let masses := vec [1; 2; 4]%Z in
  let f_heat := vec [2; -3; 1]%Z in
  let t : Qc := 0 in
  (length X = (2 * 3)%nat ∧ length damping = 3%nat ∧ length masses = 3%nat
   ∧ layer_aligned 3 1 k
   ∧ col (Spec.sampleAt t delays) force_from_heat = Some f_heat
   ∧ length f_heat = 3%nat ∧ (1 < 3)%nat
   ∧ X !! 1%nat = Some (Qc_of_Z 1) ∧ X !! (3 + 1)%nat = Some (Qc_of_Z 6)
   ∧ masses !! 1%nat = Some (Qc_of_Z 2) ∧ damping !! 1%nat = Some (Qc_of_Z 2)
   ∧ f_heat !! 1%nat = Some (Qc_of_Z (-3)))
  ∧ ∃ X_prime,
      fst <$> ode_func Spec.sampleAt numpy_float64 t X delays force_from_heat
                       damping k masses 3 None None
      = Some X_prime
      ∧ X_prime !! 1%nat = Some (Qc_of_Z 6)
      ∧ X_prime !! (3 + 1)%nat
        = Some ((Qc_of_Z 2 * Qc_of_Z 2 * Qc_of_Z 6
                 + ((if decide (2 < 3)%nat
                     then poly (consts_row k 1)
                               (default 0 (X !! 2%nat) - Qc_of_Z 1)
                     else 0)
                    - poly (consts_row k 0) (Qc_of_Z 1 - default 0 (X !! 0%nat)))
                 + Qc_of_Z (-3)) / Qc_of_Z 2).
Proof.
  cbv zeta.
  assert (H1 : length (vec [0; 1; 3; 5; 6; 7]%Z) = (2 * 3)%nat) by reflexivity.
  assert (H2 : length (vec [1; 2; 3]%Z) = 3%nat) by reflexivity.
  assert (H3 : length (vec [1; 2; 4]%Z) = 3%nat) by reflexivity.
  assert (H4 : layer_aligned 3 1 (A1 (vec [1; 10; 4]%Z))) by (split; reflexivity).
  assert (H5 : col (Spec.sampleAt 0 (vec [0]%Z)) (matZ 1 [[2]; [-3]; [1]]%Z)
               = Some (vec [2; -3; 1]%Z)) by (vm_compute; reflexivity).
  assert (H6 : length (vec [2; -3; 1]%Z) = 3%nat) by reflexivity.
  assert (H7 : (1 < 3)%nat) by lia.
  assert (H8 : vec [0; 1; 3; 5; 6; 7]%Z !! 1%nat = Some (Qc_of_Z 1))
    by reflexivity.
  assert (H9 : vec [0; 1; 3; 5; 6; 7]%Z !! (3 + 1)%nat = Some (Qc_of_Z 6))
    by reflexivity.
  assert (H10 : vec [1; 2; 4]%Z !! 1%nat = Some (Qc_of_Z 2)) by reflexivity.
  assert (H11 : vec [1; 2; 3]%Z !! 1%nat = Some (Qc_of_Z 2)) by reflexivity.
  assert (H12 : vec [2; -3; 1]%Z !! 1%nat = Some (Qc_of_Z (-3))) by reflexivity.
  split; [exact (conj H1 (conj H2 (conj H3 (conj H4 (conj H5 (conj H6 (conj H7
            (conj H8 (conj H9 (conj H10 (conj H11 H12)))))))))))|].
  exact (equation_of_motion Spec.sampleAt 0 _ _ _ _ _ _ _ 3 1 numpy_float64
           None None 1 _ _ _ _ _ H1 H2 H3 H4 H5 H6 H7 H8 H9 H10 H11 H12).
Defined.

(** X8: the chain at rest stays at rest while nothing heats it: for the
    zero state and a sampled heat force of zero, [ode_func] returns the zero
    vector, whatever the spring constants and the damping (the masses are
    nonzero), whenever the progress branch does not raise, as always
    without a progress bar. *)
Theorem rest_is_an_equilibrium (finderb : Qc → list Qc → nat) (t : Qc)
    (delays : list Qc) (force_from_heat : mat) (damping : list Qc)
    (k : ndarray) (masses : list Qc) (L M : nat) (floats : float_kind)
    (pbar : option tqdm) (state : option (list Qc)) :
  (1 ≤ L)%nat → length damping = L → length masses = L →
  Forall (λ m, m ≠ 0) masses → layer_aligned L M k →
  col (finderb t delays) force_from_heat = Some (zeros L) →
  fst <$> ode_func finderb floats t (zeros (2 * L)) delays force_from_heat
                   damping k masses L pbar state
  = (λ _, zeros (2 * L)) <$> progress_step floats t pbar state.
Proof.
  intros HL Hd Hm _ Hk Hcol.
  destruct (layer_aligned_rows _ _ _ Hk) as (Hlen & _).
  rewrite (ode_func_closed _ _ _ _ _ _ _ _ _ L M _ _ (zeros L));
    [|done|apply length_replicate|done..|apply length_replicate].
  destruct (progress_step floats t pbar state) as [shown|]; [|done].
  cbn [fmap option_fmap option_map fst]. f_equal. unfold zeros.
  rewrite take_replicate, drop_replicate.
  replace (L `min` (2 * L))%nat with L by lia.
  replace (2 * L - L)%nat with L by lia.
  rewrite diff1_zeros.
  rewrite spring_closed_at_rest by lia.
  replace (Datatypes.S (L - 1)) with L by lia.
  rewrite (zip_with_zero_r Qcmult _ L);
    [|intros x; ring|rewrite length_zip_with; lia].
  rewrite zip_with_replicate.
  rewrite zip_with_replicate.
  replace (0 + 0 + 0 : Qc) with (0 : Qc) by ring.
  rewrite (zip_with_zero_l Qcdiv masses L); [|intros y; unfold Qcdiv; ring|done].
  rewrite <-replicate_add. f_equal. lia.
Qed.

Lemma rest_is_an_equilibrium_witness :
  let delays := vec [0]%Z in
  let force_from_heat := matZ 1 [[0]; [0]]%Z in
  let damping := vec [1; 2]%Z in
  let k := A1 (vec [1; 10]%Z) in
  let masses := vec [1; 2]%Z in
  let t : Qc := 0 in
  ((1 ≤ 2)%nat ∧ length damping = 2%nat ∧ length masses = 2%nat
   ∧ Forall (λ m, m ≠ 0) masses ∧ layer_aligned 2 1 k
   ∧ col (Spec.sampleAt t delays) force_from_heat = Some (zeros 2))
  ∧ fst <$> ode_func Spec.sampleAt numpy_float64 t (zeros (2 * 2)) delays
                     force_from_heat damping k masses 2 None None
    = Some (zeros (2 * 2)).
Proof.
  cbv zeta.
  assert (H1 : (1 ≤ 2)%nat) by lia.
  assert (H2 : length (vec [1; 2]%Z) = 2%nat) by reflexivity.
  assert (H3 : Forall (λ m : Qc, m ≠ 0) (vec [1; 2]%Z)).
  { repeat constructor; compute_done. }
  assert (H4 : layer_aligned 2 1 (A1 (vec [1; 10]%Z))) by (split; reflexivity).
  assert (H5 : col (Spec.sampleAt 0 (vec [0]%Z)) (matZ 1 [[0]; [0]]%Z)
               = Some (zeros 2)) by compute_done.
  split; [exact (conj H1 (conj H2 (conj H2 (conj H3 (conj H4 H5)))))|].
  exact (rest_is_an_equilibrium Spec.sampleAt 0 _ _ _ _ _ 2 1 numpy_float64
           None None H1 H2 H2 H3 H4 H5).
Defined.

(* ===================================================================== *)
(** * Further properties of the strain map and its cache *)
(* ===================================================================== *)

(** Closes a goal about the world in which a method ends. *)
Ltac world_done :=
  cbn [snd files messages ode_runs];
  rewrite ?app_nil_r, <-?(assoc_L (++));
  split_and!; [reflexivity|reflexivity|reflexivity|simpl; lia
              |first [reflexivity | intros ?; discriminate]].

Section cache_facts.
Context `{Collaborators}.

(** What a call of [calc_strain_map] does to the world, however it ends:
    it leaves the files alone, it only adds messages, and it calls the
    integrator at most once, and never in heat-only mode. *)
Lemma calc_strain_map_world (self : simulation) (delays : list Qc)
    (temp_map delta_temp_map : TempMap) (w : world) :
  ∃ msgs runs,
    let w' := snd (calc_strain_map self delays temp_map delta_temp_map w) in
    files w' = files w
    ∧ messages w' = messages w ++ msgs
    ∧ ode_runs w' = ode_runs w ++ runs
    ∧ (length runs ≤ 1)%nat
    ∧ (only_heat self = true → runs = []).
Proof.
  unfold calc_strain_map. rewrite bind_run.
  destruct (check_temp_maps temp_map delta_temp_map delays) as [[tm dtm]|];
    cbn [lift ret raise]; [|exists [], []; world_done].
  rewrite bind_run. cbn [disp_message]. rewrite bind_run.
  destruct (calc_sticks_from_temp_map self tm dtm) as [[sticks subs]|];
    cbn [lift ret raise]; [|eexists [_], []; world_done].
  rewrite bind_run. destruct (only_heat self) eqn:Hmode.
  - rewrite bind_run.
    destruct (broadcast2 _ _ _) as [sm|]; cbn [lift ret raise];
      [|eexists [_], []; world_done].
    rewrite bind_run. cbn [disp_message].
    eexists [_; _], []. world_done.
  - rewrite bind_run. cbn [disp_message]. rewrite bind_run.
    destruct (calc_force_from_heat _ _) as [F|]; cbn [lift ret raise];
      [|eexists [_; _], []; world_done].
    rewrite bind_run.
    destruct (delays !! 0%nat) as [first|]; cbn [lift ret raise];
      [|eexists [_; _], []; world_done].
    rewrite bind_run.
    destruct (delays !! _) as [final|]; cbn [lift ret raise];
      [|eexists [_; _], []; world_done].
    rewrite bind_run. unfold run_solver.
    destruct (solve_ivp _ _ _ _ _) as [y|];
      [|eexists [_; _], [_]; world_done].
    rewrite bind_run.
    destruct (broadcast2 _ _ _) as [sm|]; cbn [lift ret raise];
      [|eexists [_; _], [_]; world_done].
    rewrite bind_run. cbn [disp_message].
    eexists [_; _; _], [_]. world_done.
Qed.

End cache_facts.

(** X9: however a call of [calc_strain_map] ends, it has not touched the
    files of the cache, it has only added messages, and it has called the
    ODE integrator at most once, and not at all in heat-only mode. *)
Theorem calc_strain_map_has_no_other_effect `{Collaborators}
    (self : simulation) (delays : list Qc) (temp_map delta_temp_map : TempMap)
    (w : world) :
  ∃ msgs runs,
    let w' := snd (calc_strain_map self delays temp_map delta_temp_map w) in
    files w' = files w
    ∧ messages w' = messages w ++ msgs
    ∧ ode_runs w' = ode_runs w ++ runs
    ∧ (length runs ≤ 1)%nat
    ∧ (only_heat self = true → runs = []).
Proof. apply calc_strain_map_world. Qed.

(** X10: with coherent dynamics and no delay at all, [calc_strain_map]
    raises (at the latest at [delays[0]]) and the integrator is not
    called. *)
Theorem no_delays_no_dynamics `{Collaborators} (self : simulation)
    (temp_map delta_temp_map : TempMap) (w : world) :
  only_heat self = false →
  ∃ e w', calc_strain_map self [] temp_map delta_temp_map w = (Raise e, w')
          ∧ ode_runs w' = ode_runs w.
Proof.
  intros Hmode. unfold calc_strain_map. rewrite bind_run.
  destruct (check_temp_maps temp_map delta_temp_map []) as [[tm dtm]|];
    cbn [lift ret raise]; [|by eexists _, _].
  rewrite bind_run. cbn [disp_message]. rewrite bind_run.
  destruct (calc_sticks_from_temp_map self tm dtm) as [[sticks subs]|];
    cbn [lift ret raise]; [|by eexists _, _].
  rewrite bind_run, Hmode, bind_run. cbn [disp_message]. rewrite bind_run.
  destruct (calc_force_from_heat _ _) as [F|]; cbn [lift ret raise];
    [|by eexists _, _].
  rewrite bind_run. cbn [lookup list_lookup lift raise]. by eexists _, _.
Qed.

Lemma no_delays_no_dynamics_witness :
  only_heat (Demo.sim false) = false
  ∧ ∃ e w', calc_strain_map (H := Demo.collaborators) (Demo.sim false) []
                            Demo.sticks Demo.sticks Demo.empty_world
            = (Raise e, w')
            ∧ ode_runs w' = ode_runs Demo.empty_world.
Proof.
  assert (H1 : only_heat (Demo.sim false) = false) by reflexivity.
  split; [exact H1|].
  exact (no_delays_no_dynamics (H := Demo.collaborators) (Demo.sim false)
           Demo.sticks Demo.sticks Demo.empty_world H1).
Defined.

(** X11: [get_strain_map] writes to the cache through [save] only, after
    a calculation that succeeded: when it loads the file that exists under
    the cache key, or fails to load it, and when [calc_strain_map] raises,
    the files of the cache are afterwards as they were. *)
Theorem only_save_writes_the_cache `{Collaborators} (self : simulation)
    (delays : list Qc) (temp_map delta_temp_map : TempMap)
    (w w' : world) (r : outcome mat) :
  let full_filename :=
    abspath_join (cache_dir self)
      ("strain_map_num_" +:+ get_hash self delays temp_map delta_temp_map
                         +:+ ".npy") in
  (force_recalc self = false ∧ is_Some (files w !! full_filename))
  ∨ (∃ e w1, calc_strain_map self delays temp_map delta_temp_map w
             = (Raise e, w1)) →
  get_strain_map self delays temp_map delta_temp_map w = (r, w') →
  files w' = files w.
Proof.
  intros full_filename Hcase. unfold get_strain_map. fold full_filename.
  rewrite bind_run. unfold path_exists.
  destruct (bool_decide _ && negb (force_recalc self)) eqn:Hhit.
  - rewrite bind_run. unfold np_load.
    destruct (files w !! _) as [[data|]|].
    + rewrite bind_run. cbn [disp_message]. by intros [= _ <-].
    + by intros [= _ <-].
    + by intros [= _ <-].
  - destruct Hcase as [[Hforce Hfile]|(e & w1 & Hcalc)].
    + rewrite Hforce, bool_decide_eq_true_2 in Hhit by done. done.
    + rewrite bind_run, Hcalc. intros [= _ <-].
      destruct (calc_strain_map_world self delays temp_map delta_temp_map w)
        as (msgs & runs & Hfiles & _).
      by rewrite Hcalc in Hfiles.
Qed.

Lemma only_save_writes_the_cache_witness :
  let w1 := World ∅ ["Calculating linear thermal expansion ...";
                     "Calculating coherent dynamics with ODE solver ..."] [] in
  ((force_recalc (Demo.sim false) = false
    ∧ is_Some (files Demo.empty_world
               !! abspath_join (Collaborators := Demo.collaborators)
                    (cache_dir (Demo.sim false))
                    ("strain_map_num_"
                     +:+ get_hash (Collaborators := Demo.collaborators)
                           (Demo.sim false) [] Demo.sticks Demo.sticks
                     +:+ ".npy")))
   ∨ (∃ e w1, calc_strain_map (H := Demo.collaborators) (Demo.sim false) []
                Demo.sticks Demo.sticks Demo.empty_world = (Raise e, w1)))
  ∧ get_strain_map (H := Demo.collaborators) (Demo.sim false) []
                   Demo.sticks Demo.sticks Demo.empty_world
    = (Raise ArrayError, w1)
  ∧ files w1 = files Demo.empty_world.
Proof.
  cbv zeta.
  assert (H0 : calc_strain_map (H := Demo.collaborators) (Demo.sim false) []
                 Demo.sticks Demo.sticks Demo.empty_world
               = (Raise ArrayError,
                  World ∅ ["Calculating linear thermal expansion ...";
                           "Calculating coherent dynamics with ODE solver ..."]
                        [])) by compute_done.
  assert (H1 : get_strain_map (H := Demo.collaborators) (Demo.sim false) []
                 Demo.sticks Demo.sticks Demo.empty_world
               = (Raise ArrayError,
                  World ∅ ["Calculating linear thermal expansion ...";
                           "Calculating coherent dynamics with ODE solver ..."]
                        [])) by compute_done.
  split_and!; [right; eexists _, _; exact H0|exact H1|].
  exact (only_save_writes_the_cache (H := Demo.collaborators) (Demo.sim false)
           [] Demo.sticks Demo.sticks Demo.empty_world _ _
           (or_intror (ex_intro _ _ (ex_intro _ _ H0))) H1).
Defined.

(** X12: when recalculation is forced, or no file exists under the cache
    key, [get_strain_map] does not read the cache: it returns the strain
    map that [calc_strain_map] returns on the same inputs, also over an
    unreadable file, and hands that array to [save]. *)
Theorem forced_or_missing_recalculates `{Collaborators} (self : simulation)
    (delays : list Qc) (temp_map delta_temp_map : TempMap) (w w1 : world)
    (strain_map velocities : mat) (sticks_sub_systems : SubSticks) :
  let full_filename :=
    abspath_join (cache_dir self)
      ("strain_map_num_" +:+ get_hash self delays temp_map delta_temp_map
                         +:+ ".npy") in
  force_recalc self = true ∨ files w !! full_filename = None →
  calc_strain_map self delays temp_map delta_temp_map w
  = (Ok (strain_map, sticks_sub_systems, velocities), w1) →
  get_strain_map self delays temp_map delta_temp_map w
  = bind (save full_filename [strain_map] "_strain_map_num_")
         (λ _, ret strain_map) w1.
Proof.
  intros full_filename Hmiss Hcalc. unfold get_strain_map.
  fold full_filename. rewrite bind_run. unfold path_exists.
  replace (bool_decide _ && negb (force_recalc self)) with false.
  - rewrite bind_run, Hcalc. done.
  - destruct Hmiss as [->| ->].
    + by rewrite andb_false_r.
    + by rewrite bool_decide_eq_false_2 by (intros [? ?]; done).
Qed.

Lemma forced_or_missing_recalculates_witness :
  let self := Demo.sim false in
  let full_filename :=
    abspath_join (Collaborators := Demo.collaborators) (cache_dir self)
      ("strain_map_num_"
       +:+ get_hash (Collaborators := Demo.collaborators) self Demo.delays
                    Demo.sticks Demo.sticks +:+ ".npy") in
  let w1 :=
    World ∅ ["Calculating linear thermal expansion ...";
             "Calculating coherent dynamics with ODE solver ...";
             "Elapsed time for _strain_map_"]
          [OdeRun (Qc_of_Z 0, Qc_of_Z 3) (zeros 4)] in
  ((force_recalc self = true ∨ files Demo.empty_world !! full_filename = None)
   ∧ calc_strain_map (H := Demo.collaborators) self Demo.delays
                     Demo.sticks Demo.sticks Demo.empty_world
     = (Ok (Demo.strain_map, (), Demo.velocities), w1))
  ∧ get_strain_map (H := Demo.collaborators) self Demo.delays
                   Demo.sticks Demo.sticks Demo.empty_world
    = bind (save full_filename [Demo.strain_map] "_strain_map_num_")
           (λ _, ret Demo.strain_map) w1.
Proof.
  cbv zeta.
  assert (H1 : force_recalc (Demo.sim false) = true
               ∨ files Demo.empty_world
                   !! abspath_join (Collaborators := Demo.collaborators)
                        (cache_dir (Demo.sim false))
                        ("strain_map_num_"
                         +:+ get_hash (Collaborators := Demo.collaborators)
                               (Demo.sim false) Demo.delays Demo.sticks
                               Demo.sticks +:+ ".npy") = None)
    by (right; reflexivity).
  assert (H2 : calc_strain_map (H := Demo.collaborators) (Demo.sim false)
                 Demo.delays Demo.sticks Demo.sticks Demo.empty_world
               = (Ok (Demo.strain_map, (), Demo.velocities),
                  World ∅ ["Calculating linear thermal expansion ...";
                           "Calculating coherent dynamics with ODE solver ...";
                           "Elapsed time for _strain_map_"]
                        [OdeRun (Qc_of_Z 0, Qc_of_Z 3) (zeros 4)]))
    by compute_done.
  split; [exact (conj H1 H2)|].
  exact (forced_or_missing_recalculates (H := Demo.collaborators)
           (Demo.sim false) Demo.delays Demo.sticks Demo.sticks
           Demo.empty_world _ _ _ _ H1 H2).
Defined.

(* ===================================================================== *)
(** * The sample structure: results *)
(* ===================================================================== *)

Section sample_facts.
Import Sample.

(** Induction over a structure and the structures among its
    sub-structures. *)
Lemma Structure_ind (P : Structure → Prop) :
  (∀ name nss subs sb,
     Forall (λ sub, match sub.1 with
                    | ALayer _ => True
                    | AStructure s => P s
                    end) subs →
     P (MkStructure name nss subs sb)) →
  ∀ s, P s.
Proof.
  intros Hstep. fix IH 1. intros [name nss subs sb]. apply Hstep.
  induction subs as [|[[l|s] n] subs IHsubs]; constructor; simpl; auto.
Qed.

Lemma add_unique_inv acc temp2 :
  NoDup acc.1 → acc.1 = id <$> acc.2 →
  let r := add_unique acc (id <$> temp2) temp2 in
  NoDup r.1 ∧ r.1 = id <$> r.2
  ∧ ∀ x, x ∈ r.1 ↔ x ∈ acc.1 ∨ x ∈ id <$> temp2.
Proof.
  unfold add_unique. revert acc.
  induction temp2 as [|l temp2 IH]; intros [ids hs] Hnd Hids; simpl in *.
  { split_and!; [done..|]. intros x. rewrite elem_of_nil. tauto. }
  case_decide as Hin.
  - destruct (IH (ids, hs) Hnd Hids) as (H1 & H2 & H3).
    split_and!; [done..|]. intros x. rewrite H3, elem_of_cons. simpl.
    split; [tauto|]. intros [?|[->|?]]; tauto.
  - destruct (IH (ids ++ [id l], hs ++ [l])) as (H1 & H2 & H3); simpl.
    { apply list.NoDup_app. split_and!; [done| |apply NoDup_singleton].
      intros x Hx ->%list_elem_of_singleton. done. }
    { by rewrite fmap_app, Hids. }
    split_and!; [done..|]. intros x. rewrite H3. simpl.
    rewrite elem_of_app, list_elem_of_singleton, elem_of_cons. tauto.
Qed.

(** The loop of [get_unique_layers] over the sub-structures. *)
Lemma unique_layers_fold subs acc :
  Forall (λ sub : SubStructure * nat, match sub.1 with
                 | ALayer _ => True
                 | AStructure s =>
                     NoDup (get_unique_layers s).1
                     ∧ (get_unique_layers s).1 = id <$> (get_unique_layers s).2
                     ∧ ∀ x, x ∈ (get_unique_layers s).1 ↔ x ∈ id <$> layers_in s
                 end) subs →
  NoDup acc.1 → acc.1 = id <$> acc.2 →
  let r := foldl (λ (acc : list string * list Layer) (sub : SubStructure * nat),
               let '(layer_ids, layer_handles) := acc in
               match sub with
               | (ALayer l, _) =>
                   if decide (layer_ids = [])
                   then (layer_ids ++ [id l], layer_handles ++ [l])
                   else if decide (id l ∈ layer_ids) then acc
                        else (layer_ids ++ [id l], layer_handles ++ [l])
               | (AStructure s, _) =>
                   if decide (layer_ids = []) then get_unique_layers s
                   else add_unique acc (get_unique_layers s).1
                                       (get_unique_layers s).2
               end) acc subs in
  NoDup r.1 ∧ r.1 = id <$> r.2
  ∧ ∀ x, x ∈ r.1
         ↔ x ∈ acc.1
           ∨ x ∈ id <$> flat_map (λ sub : SubStructure * nat, match sub with
                                         | (ALayer l, _) => [l]
                                         | (AStructure s, _) => layers_in s
                                         end) subs.
Proof.
  intros Hsubs. revert acc.
  induction Hsubs as [|[[l|s] n] subs Hsub _ IH]; intros [ids hs] Hnd Hids;
    cbn [foldl].
  { simpl. split_and!; [done..|]. intros x. rewrite elem_of_nil. tauto. }
  - (* a layer *)
    assert (Hadd : NoDup (ids ++ [id l]) ∧ ids ++ [id l] = id <$> (hs ++ [l])
                   ∨ id l ∈ ids).
    { destruct (decide (id l ∈ ids)) as [?|Hnin]; [by right|left]. split.
      - apply list.NoDup_app. split_and!; [done| |apply NoDup_singleton].
        intros x Hx ->%list_elem_of_singleton. done.
      - simpl in Hids. by rewrite fmap_app, Hids. }
    simpl in Hnd, Hids. case_decide as Hnil.
    + destruct Hadd as [[Ha Hb]|Hin]; [|rewrite Hnil in Hin; by apply elem_of_nil in Hin].
      destruct (IH (ids ++ [id l], hs ++ [l]) Ha Hb) as (H1 & H2 & H3).
      split_and!; [done..|]. intros x. rewrite H3. simpl.
      rewrite elem_of_app, list_elem_of_singleton, elem_of_cons. tauto.
    + case_decide as Hin.
      * destruct (IH (ids, hs) Hnd Hids) as (H1 & H2 & H3).
        split_and!; [done..|]. intros x. rewrite H3. simpl.
        rewrite elem_of_cons. split; [tauto|]. intros [?|[->|?]]; tauto.
      * destruct Hadd as [[Ha Hb]|?]; [|done].
        destruct (IH (ids ++ [id l], hs ++ [l]) Ha Hb) as (H1 & H2 & H3).
        split_and!; [done..|]. intros x. rewrite H3. simpl.
        rewrite elem_of_app, list_elem_of_singleton, elem_of_cons. tauto.
  - (* a structure *)
    simpl in Hsub, Hnd, Hids. destruct Hsub as (Hs1 & Hs2 & Hs3).
    case_decide as Hnil.
    + destruct (IH (get_unique_layers s) Hs1 Hs2) as (H1 & H2 & H3).
      split_and!; [done..|]. intros x. rewrite H3, Hs3. simpl.
      rewrite fmap_app, elem_of_app, Hnil, elem_of_nil. tauto.
    + pose proof (add_unique_inv (ids, hs) (get_unique_layers s).2 Hnd Hids)
        as Hadd.
      rewrite <-Hs2 in Hadd. destruct Hadd as (Ha & Hb & Hc).
      destruct (IH _ Ha Hb) as (H1 & H2 & H3).
      split_and!; [done..|]. intros x. rewrite H3, Hc, Hs3. simpl.
      rewrite fmap_app, elem_of_app. tauto.
Qed.

Lemma unique_layers_inv (s : Structure) :
  NoDup (get_unique_layers s).1
  ∧ (get_unique_layers s).1 = id <$> (get_unique_layers s).2
  ∧ ∀ x, x ∈ (get_unique_layers s).1 ↔ x ∈ id <$> layers_in s.
Proof.
  induction s as [name nss subs sb Hsubs] using Structure_ind.
  destruct (unique_layers_fold subs ([], []) Hsubs) as (H1 & H2 & H3);
    [apply NoDup_nil_2|done|].
  split_and!; [exact H1|exact H2|].
  intros x. rewrite (H3 x). simpl. rewrite elem_of_nil. tauto.
Qed.

Lemma index_elem_of (l : list string) x :
  x ∈ l → ∃ i, index l x = Some i ∧ l !! i = Some x.
Proof.
  intros Hx. unfold index.
  destruct (list_find_elem_of (λ y, y = x) l x Hx eq_refl) as [[i y] Hfind].
  rewrite Hfind. exists i. split; [done|].
  apply list_find_Some in Hfind as (Hi & -> & _). done.
Qed.

Lemma length_concat_replicate {A} n (l : list A) :
  length (concat (replicate n l)) = (length l * n)%nat.
Proof. induction n as [|n IH]; simpl; [lia|]. rewrite length_app, IH. lia. Qed.

Lemma fmap_concat_replicate {A B} (f : A → B) n (l : list A) :
  f <$> concat (replicate n l) = concat (replicate n (f <$> l)).
Proof. induction n as [|n IH]; simpl; [done|]. by rewrite fmap_app, IH. Qed.

Lemma Forall2_concat_replicate {A B} (P : A → B → Prop) n l k :
  Forall2 P l k → Forall2 P (concat (replicate n l)) (concat (replicate n k)).
Proof.
  intros Hlk. induction n as [|n IH]; simpl; [constructor|].
  by apply Forall2_app.
Qed.

(** The loop of [get_layer_vectors] over the sub-structures. *)
Lemma layer_vectors_fold layers subs acc N :
  Forall (λ sub : SubStructure * nat,
            match sub.1 with
            | ALayer l => id l ∈ layers.1
            | AStructure s =>
                ∃ r, get_layer_vectors_of layers s = Some r
                     ∧ vectors_agree layers (get_number_of_layers s) r
            end) subs →
  vectors_agree layers N acc →
  ∃ r,
    foldl (λ (acc : option (list nat * list string * list Layer))
             (sub : SubStructure * nat),
             '(indices, layer_ids, layer_handles) ← acc;
             match sub with
             | (ALayer l, n) =>
                 Index ← index layers.1 (id l);
                 Some (indices ++ replicate n Index,
                       layer_ids ++ replicate n (id l),
                       layer_handles ++ replicate n l)
             | (AStructure s, n) =>
                 '(temp1, temp2, temp3) ← get_layer_vectors_of layers s;
                 Some (indices ++ concat (replicate n temp1),
                       layer_ids ++ concat (replicate n temp2),
                       layer_handles ++ concat (replicate n temp3))
             end) (Some acc) subs = Some r
    ∧ vectors_agree layers
        (foldl (λ N (sub : SubStructure * nat),
                  match sub with
                  | (ALayer _, n) => N + n
                  | (AStructure s, n) => N + get_number_of_layers s * n
                  end)%nat N subs) r.
Proof.
  intros Hsubs. revert acc N.
  induction Hsubs as [|[[l|s] n] subs Hsub _ IH];
    intros [[indices ids] handles] N (Hlen & Hids & Hidx); cbn [foldl].
  { eexists. split; [done|]. done. }
  - simpl in Hsub, Hlen, Hids, Hidx.
    destruct (index_elem_of _ _ Hsub) as (i & Hi & Hlook).
    cbn [mbind option_bind]. rewrite Hi. cbn [mbind option_bind].
    apply IH. split_and!; simpl.
    + rewrite length_app, length_replicate. lia.
    + by rewrite fmap_app, fmap_replicate, Hids.
    + apply Forall2_app; [done|]. by apply Forall2_replicate.
  - simpl in Hsub, Hlen, Hids, Hidx.
    destruct Hsub as ([[t1 t2] t3] & Hs & Hl & Hi & Hx). simpl in Hl, Hi, Hx.
    cbn [mbind option_bind]. rewrite Hs. cbn [mbind option_bind].
    apply IH. split_and!; simpl.
    + rewrite length_app, length_concat_replicate. lia.
    + by rewrite fmap_app, fmap_concat_replicate, Hids, Hi.
    + apply Forall2_app; [done|]. by apply Forall2_concat_replicate.
Qed.

Lemma layer_vectors_of_total layers (s : Structure) :
  (∀ l, l ∈ layers_in s → id l ∈ layers.1) →
  ∃ r, get_layer_vectors_of layers s = Some r
       ∧ vectors_agree layers (get_number_of_layers s) r.
Proof.
  induction s as [name nss subs sb Hsubs] using Structure_ind.
  intros Hcov. cbn [get_layer_vectors_of get_number_of_layers].
  apply layer_vectors_fold; [|split_and!; [done|done|constructor]].
  apply Forall_forall. intros [[l|s] n] Hin; simpl.
  - apply Hcov. simpl. apply list_elem_of_In, in_flat_map.
    exists (ALayer l, n). split; [exact Hin|by left].
  - rewrite Forall_forall in Hsubs. apply (Hsubs _ Hin).
    intros l Hl. apply Hcov. simpl. apply list_elem_of_In, in_flat_map.
    exists (AStructure s, n). split; [exact Hin|by apply list_elem_of_In].
Qed.

End sample_facts.

(** X13: the unique layers that [get_unique_layers] returns: no id occurs
    twice, the ids are the ids of the handles, in the same order (so the two
    lists have the same length), and an id is in the list exactly when a
    layer with this id stands somewhere in the structure. *)
Theorem unique_layers_are_unique (self : Sample.Structure) :
  let layers := Sample.get_unique_layers self in
  NoDup layers.1
  ∧ layers.1 = Sample.id <$> layers.2
  ∧ ∀ x, x ∈ layers.1
         ↔ ∃ l, l ∈ Sample.layers_in self ∧ Sample.id l = x.
Proof.
  destruct (unique_layers_inv self) as (H1 & H2 & H3).
  split_and!; [done..|]. intros x. rewrite H3, list_elem_of_fmap.
  split; intros (l & ? & ?); by exists l.
Qed.

(** X14: [get_layer_vectors()] never raises: every id is found among the
    unique ids.  Its three vectors have [get_number_of_layers()] entries
    each, the ids are those of the handles, and each index is the place of
    the layer's id in the list of the unique ids. *)
Theorem layer_vectors_agree (self : Sample.Structure) :
  ∃ indices layer_ids layer_handles,
    Sample.get_layer_vectors self = Some (indices, layer_ids, layer_handles)
    ∧ length indices = Sample.get_number_of_layers self
    ∧ length layer_ids = Sample.get_number_of_layers self
    ∧ length layer_handles = Sample.get_number_of_layers self
    ∧ layer_ids = Sample.id <$> layer_handles
    ∧ Forall2 (λ i x, (Sample.get_unique_layers self).1 !! i = Some x)
              indices layer_ids.
Proof.
  destruct (layer_vectors_of_total (Sample.get_unique_layers self) self)
    as ([[indices ids] handles] & Hr & Hlen & Hids & Hidx).
  { intros l Hl. apply unique_layers_inv. by apply list_elem_of_fmap_2. }
  simpl in Hlen, Hids, Hidx.
  exists indices, ids, handles. split_and!; [done|done| | |done|done].
  - by rewrite <-(Forall2_length Hidx).
  - rewrite <-Hlen, (Forall2_length Hidx), Hids. by rewrite length_fmap.
Qed.

(** X15: for a position [i] counted from the surface (not negative),
    [get_layer_handle(i)] returns a layer exactly when [i] is below
    [get_number_of_layers()], and raises otherwise. *)
Theorem layer_handle_bounds (self : Sample.Structure) (i : nat) :
  is_Some (Sample.get_layer_handle self i)
  ↔ (i < Sample.get_number_of_layers self)%nat.
Proof.
  destruct (layer_vectors_of_total (Sample.get_unique_layers self) self)
    as ([[indices ids] handles] & Hr & Hlen & Hids & Hidx).
  { intros l Hl. apply unique_layers_inv. by apply list_elem_of_fmap_2. }
  simpl in Hlen, Hids, Hidx.
  unfold Sample.get_layer_handle, Sample.get_layer_vectors. rewrite Hr.
  cbn [mbind option_bind]. rewrite lookup_lt_is_Some.
  rewrite <-Hlen, (Forall2_length Hidx), Hids. by rewrite length_fmap.
Qed.

Section sample_handles.
Import Sample.

Lemma add_unique_handles acc temp1 temp2 h :
  h ∈ (add_unique acc temp1 temp2).2 → h ∈ acc.2 ∨ h ∈ temp2.
Proof.
  unfold add_unique.
  assert (Hzip : ∀ t, t ∈ zip temp1 temp2 → t.2 ∈ temp2).
  { intros [a b] Ht. simpl. by eapply elem_of_zip_r. }
  revert acc Hzip. generalize (zip temp1 temp2). intros ts.
  induction ts as [|t ts IH]; intros acc Hzip; cbn [foldl]; [by left|].
  intros Hh. apply IH in Hh.
  - destruct Hh as [Hh|?]; [|by right]. case_decide; [by left|].
    simpl in Hh. apply elem_of_app in Hh as [?|Hh]; [by left|].
    apply list_elem_of_singleton in Hh as ->. right. apply Hzip. by left.
  - intros t' Ht'. apply Hzip. by right.
Qed.

Lemma unique_handles_fold subs acc h :
  Forall (λ sub : SubStructure * nat,
            match sub.1 with
            | ALayer _ => True
            | AStructure s =>
                ∀ h, h ∈ (get_unique_layers s).2 → h ∈ layers_in s
            end) subs →
  h ∈ (foldl (λ (acc : list string * list Layer) (sub : SubStructure * nat),
               let '(layer_ids, layer_handles) := acc in
               match sub with
               | (ALayer l, _) =>
                   if decide (layer_ids = [])
                   then (layer_ids ++ [id l], layer_handles ++ [l])
                   else if decide (id l ∈ layer_ids) then acc
                        else (layer_ids ++ [id l], layer_handles ++ [l])
               | (AStructure s, _) =>
                   if decide (layer_ids = []) then get_unique_layers s
                   else add_unique acc (get_unique_layers s).1
                                       (get_unique_layers s).2
               end) acc subs).2 →
  h ∈ acc.2
  ∨ h ∈ flat_map (λ sub : SubStructure * nat,
                    match sub with
                    | (ALayer l, _) => [l]
                    | (AStructure s, _) => layers_in s
                    end) subs.
Proof.
  intros Hsubs. revert acc.
  induction Hsubs as [|[[l|s] n] subs Hsub _ IH]; intros [ids hs];
    cbn [foldl flat_map]; [by left| |].
  - intros Hh. apply IH in Hh. rewrite elem_of_app.
    destruct Hh as [Hh|?]; [|by right; right].
    repeat case_decide; simpl in *; [|by left|];
      (apply elem_of_app in Hh as [?|Hh]; [by left|];
       apply list_elem_of_singleton in Hh as ->; right; left; by left).
  - intros Hh. apply IH in Hh. rewrite elem_of_app.
    destruct Hh as [Hh|?]; [|by right; right].
    simpl in Hsub. case_decide.
    + right; left. by apply Hsub.
    + apply add_unique_handles in Hh as [?|?]; [by left|].
      right; left. by apply Hsub.
Qed.

Lemma unique_handles_in (s : Structure) h :
  h ∈ (get_unique_layers s).2 → h ∈ layers_in s.
Proof.
  revert h. induction s as [name nss subs sb Hsubs] using Structure_ind.
  intros h Hh. apply unique_handles_fold in Hh; [|done].
  destruct Hh as [Hh|?]; [|done]. by apply elem_of_nil in Hh.
Qed.

Lemma elem_of_concat_replicate {A} n (l : list A) x :
  x ∈ concat (replicate n l) → x ∈ l.
Proof.
  induction n as [|n IH]; simpl; [by intros ?%elem_of_nil|].
  rewrite elem_of_app. intros [?|?]; auto.
Qed.

Lemma vector_handles_fold layers subs acc r h :
  Forall (λ sub : SubStructure * nat,
            match sub.1 with
            | ALayer _ => True
            | AStructure s =>
                ∀ r h, get_layer_vectors_of layers s = Some r →
                       h ∈ r.2 → h ∈ layers_in s
            end) subs →
  foldl (λ (acc : option (list nat * list string * list Layer))
           (sub : SubStructure * nat),
           '(indices, layer_ids, layer_handles) ← acc;
           match sub with
           | (ALayer l, n) =>
               Index ← index layers.1 (id l);
               Some (indices ++ replicate n Index,
                     layer_ids ++ replicate n (id l),
                     layer_handles ++ replicate n l)
           | (AStructure s, n) =>
               '(temp1, temp2, temp3) ← get_layer_vectors_of layers s;
               Some (indices ++ concat (replicate n temp1),
                     layer_ids ++ concat (replicate n temp2),
                     layer_handles ++ concat (replicate n temp3))
           end) acc subs = Some r →
  h ∈ r.2 →
  ∃ a, acc = Some a
       ∧ (h ∈ a.2
          ∨ h ∈ flat_map (λ sub : SubStructure * nat,
                            match sub with
                            | (ALayer l, _) => [l]
                            | (AStructure s, _) => layers_in s
                            end) subs).
Proof.
  intros Hsubs. revert acc.
  induction Hsubs as [|[[l|s] n] subs Hsub _ IH]; intros acc;
    cbn [foldl flat_map].
  - intros -> Hh. eexists. split; [done|by left].
  - intros Hfold Hh. destruct (IH _ Hfold Hh) as (a & Ha & Hin).
    destruct acc as [[[indices ids] handles]|]; [|done].
    cbn [mbind option_bind] in Ha.
    destruct (index layers.1 (id l)) as [i|]; [|done].
    cbn [mbind option_bind] in Ha. injection Ha as <-.
    eexists. split; [done|]. rewrite elem_of_app. simpl in *.
    destruct Hin as [Hin|?]; [|by right; right].
    apply elem_of_app in Hin as [?|Hin]; [by left|].
    apply elem_of_replicate in Hin as [-> _]. right; left. by left.
  - intros Hfold Hh. destruct (IH _ Hfold Hh) as (a & Ha & Hin).
    destruct acc as [[[indices ids] handles]|]; [|done].
    cbn [mbind option_bind] in Ha.
    destruct (get_layer_vectors_of layers s) as [[[t1 t2] t3]|] eqn:Hs; [|done].
    cbn [mbind option_bind] in Ha. injection Ha as <-.
    eexists. split; [done|]. rewrite elem_of_app. simpl in *.
    destruct Hin as [Hin|?]; [|by right; right].
    apply elem_of_app in Hin as [?|Hin]; [by left|].
    apply elem_of_concat_replicate in Hin. right; left.
    by apply (Hsub _ _ Hs).
Qed.

Lemma vector_handles_in layers (s : Structure) r h :
  get_layer_vectors_of layers s = Some r → h ∈ r.2 → h ∈ layers_in s.
Proof.
  revert r h. induction s as [name nss subs sb Hsubs] using Structure_ind.
  intros r h Hr Hh.
  destruct (vector_handles_fold layers subs _ r h Hsubs Hr Hh)
    as (a & [= <-] & [Hin|Hin]); [|done].
  by apply elem_of_nil in Hin.
Qed.

End sample_handles.

Section sample_vectors.
Import Sample.

Lemma layer_vectors_total (s : Structure) :
  ∃ indices ids handles,
    get_layer_vectors s = Some (indices, ids, handles)
    ∧ length indices = get_number_of_layers s
    ∧ length handles = get_number_of_layers s
    ∧ ids = id <$> handles
    ∧ Forall2 (λ i x, (get_unique_layers s).1 !! i = Some x) indices ids
    ∧ ∀ h, h ∈ handles → h ∈ layers_in s.
Proof.
  destruct (layer_vectors_of_total (get_unique_layers s) s)
    as ([[indices ids] handles] & Hr & Hlen & Hids & Hidx).
  { intros l Hl. apply unique_layers_inv. by apply list_elem_of_fmap_2. }
  simpl in Hlen, Hids, Hidx.
  exists indices, ids, handles. split_and!; [done|done| |done|done|].
  - rewrite <-Hlen, (Forall2_length Hidx), Hids. by rewrite length_fmap.
  - intros h Hh. by apply (vector_handles_in _ _ _ _ Hr).
Qed.

(** The loops over [range(get_number_of_layers())] that read
    [handles[i]]. *)
Lemma mapM_handles {A B} (g : A → option B) (handles : list A) (v : list B) :
  Forall2 (λ h y, g h = Some y) handles v →
  mapM (λ i, handle ← handles !! i; g handle) (seq 0 (length handles))
  = Some v.
Proof.
  intros Hv. apply mapM_Some_2, Forall2_same_length_lookup_2.
  { rewrite length_seq. exact (Forall2_length Hv). }
  intros i j y Hj Hy. apply lookup_seq in Hj as [-> Hi]. simpl.
  destruct (lookup_lt_is_Some_2 handles i Hi) as [h Hh]. rewrite Hh.
  cbn [mbind option_bind].
  by apply (Forall2_lookup_lr _ _ _ _ _ _ Hv Hh Hy).
Qed.

Lemma max_list_le (l : list nat) (M : nat) :
  Forall (λ x, x ≤ M)%nat l → (max_list l ≤ M)%nat.
Proof. induction 1; simpl; lia. Qed.

Lemma max_list_const (l : list nat) (M : nat) :
  l ≠ [] → Forall (λ x, x = M) l → max_list l = M.
Proof.
  intros Hl Hall. destruct Hall as [|x l -> Hall]; [done|]. simpl.
  assert (max_list l ≤ M)%nat; [|lia].
  apply max_list_le. eapply List.Forall_impl; [|exact Hall]. simpl. lia.
Qed.

End sample_vectors.

(** X16: for a property that is a number on every layer of a structure
    with at least one layer, [get_layer_property_vector] returns a
    one-dimensional array with one entry for each position of the
    structure: the value of the property of the layer that stands there. *)
Theorem property_vector_of_numbers (self : Sample.Structure)
    (property_name : string) :
  (1 ≤ Sample.get_number_of_layers self)%nat →
  (∀ l, l ∈ Sample.layers_in self →
        ∃ x, Sample.getattr l property_name = Some (Sample.Number x)) →
  ∃ prop,
    Sample.get_layer_property_vector self property_name = Some (A1 prop)
    ∧ length prop = Sample.get_number_of_layers self
    ∧ ∀ i handle, Sample.get_layer_handle self i = Some handle →
        ∃ x, Sample.getattr handle property_name = Some (Sample.Number x)
             ∧ prop !! i = Some x.
Proof.
  intros HL Hnum.
  destruct (layer_vectors_total self)
    as (indices & ids & handles & Hr & _ & Hlen & _ & _ & Hin).
  set (value_of := λ h : Sample.Layer,
         match Sample.getattr h property_name with
         | Some (Sample.Number x) => x
         | _ => 0
         end).
  assert (Hval : ∀ h, h ∈ handles →
            Sample.getattr h property_name = Some (Sample.Number (value_of h))).
  { intros h Hh. destruct (Hnum h (Hin h Hh)) as [x Hx].
    unfold value_of. by rewrite Hx. }
  exists (value_of <$> handles). split_and!.
  - unfold Sample.get_layer_property_vector. cbv zeta. rewrite Hr.
    cbn [mbind option_bind].
    destruct handles as [|first handles']; [simpl in Hlen; lia|].
    cbn [lookup list_lookup mbind option_bind].
    rewrite (Hval first) by (by left). cbn [mbind option_bind].
    rewrite (mapM_Some_2 _ _
               ((λ _, 1%nat) <$> (Sample.get_unique_layers self).2)).
    2:{ apply Forall2_fmap_r, Forall_Forall2_diag, Forall_forall.
        intros l Hl%list_elem_of_In%unique_handles_in.
        destruct (Hnum l Hl) as [x ->]. done. }
    cbn [mbind option_bind]. case_decide as Hdim.
    { exfalso. revert Hdim.
      generalize (Sample.get_unique_layers self).2. intros ls.
      assert (max_list ((λ _ : Sample.Layer, 1%nat) <$> ls) ≤ 1)%nat; [|lia].
      apply max_list_le. by induction ls; constructor. }
    rewrite <-Hlen.
    rewrite (mapM_handles _ _ (value_of <$> (first :: handles'))); [done|].
    apply Forall2_fmap_r, Forall_Forall2_diag, Forall_forall.
    intros h Hh%list_elem_of_In. by rewrite (Hval h Hh).
  - by rewrite length_fmap.
  - intros i h. unfold Sample.get_layer_handle. rewrite Hr.
    cbn [mbind option_bind]. intros Hh. exists (value_of h). split.
    + apply Hval. by eapply list_elem_of_lookup_2.
    + by rewrite list_lookup_fmap, Hh.
Qed.

Lemma property_vector_of_numbers_witness :
  ((1 ≤ Sample.get_number_of_layers SampleDemo.outer)%nat
   ∧ ∀ l, l ∈ Sample.layers_in SampleDemo.outer →
          ∃ x, Sample.getattr l "_thickness" = Some (Sample.Number x))
  ∧ ∃ prop,
      Sample.get_layer_property_vector SampleDemo.outer "_thickness"
      = Some (A1 prop)
      ∧ length prop = Sample.get_number_of_layers SampleDemo.outer
      ∧ ∀ i handle, Sample.get_layer_handle SampleDemo.outer i = Some handle →
          ∃ x, Sample.getattr handle "_thickness" = Some (Sample.Number x)
               ∧ prop !! i = Some x.
Proof.
  assert (H : (1 ≤ Sample.get_number_of_layers SampleDemo.outer)%nat
              ∧ ∀ l, l ∈ Sample.layers_in SampleDemo.outer →
                     ∃ x, Sample.getattr l "_thickness"
                          = Some (Sample.Number x)).
  { split; [vm_compute; lia|]. intros l Hl. apply list_elem_of_In in Hl.
    simpl in Hl. destruct Hl as [<-|[<-|[<-|[]]]]; eexists; reflexivity. }
  split; [exact H|]. destruct H as [H1 H2].
  exact (property_vector_of_numbers SampleDemo.outer "_thickness" H1 H2).
Defined.

(** X17: for a property that is an array of the same length [M], at least
    2, on every layer of a structure with at least one layer (the spring
    constants of an anharmonic sample), [get_layer_property_vector] returns
    a two-dimensional array of [get_number_of_layers()] rows and [M]
    columns, whose row at each position is the array of the layer that
    stands there. *)
Theorem property_vector_of_arrays (self : Sample.Structure)
    (property_name : string) (M : nat) :
  (1 ≤ Sample.get_number_of_layers self)%nat → (2 ≤ M)%nat →
  (∀ l, l ∈ Sample.layers_in self →
        ∃ a, Sample.getattr l property_name = Some (Sample.Array a)
             ∧ length a = M) →
  ∃ prop,
    Sample.get_layer_property_vector self property_name = Some (A2 prop)
    ∧ layer_aligned (Sample.get_number_of_layers self) M (A2 prop)
    ∧ ∀ i handle, Sample.get_layer_handle self i = Some handle →
        ∃ a, Sample.getattr handle property_name = Some (Sample.Array a)
             ∧ rows prop !! i = Some a.
Proof.
  intros HL HM Harr.
  destruct (layer_vectors_total self)
    as (indices & ids & handles & Hr & Hlen' & Hlen & Hids & Hidx & Hin).
  destruct (unique_layers_inv self) as (_ & Huids & _).
  set (value_of := λ h : Sample.Layer,
         match Sample.getattr h property_name with
         | Some (Sample.Array a) => a
         | _ => []
         end).
  assert (Hval : ∀ h, h ∈ Sample.layers_in self →
            Sample.getattr h property_name = Some (Sample.Array (value_of h))
            ∧ length (value_of h) = M).
  { intros h Hh. destruct (Harr h Hh) as (a & Ha & Hlena).
    unfold value_of. by rewrite Ha. }
  assert (Huniq : (Sample.get_unique_layers self).2 ≠ []).
  { intros Hnil. rewrite Hnil in Huids. simpl in Huids.
    destruct indices as [|i indices]; [simpl in Hlen'; lia|].
    inversion Hidx as [|? x ? ? Hx]; subst. by rewrite Huids in Hx. }
  exists (Mat M (value_of <$> handles)). split_and!.
  - unfold Sample.get_layer_property_vector. cbv zeta. rewrite Hr.
    cbn [mbind option_bind].
    destruct handles as [|first handles']; [simpl in Hlen; lia|].
    cbn [lookup list_lookup mbind option_bind].
    rewrite (proj1 (Hval first (Hin first ltac:(by left)))).
    cbn [mbind option_bind].
    rewrite (mapM_Some_2 _ _
               ((λ _, M) <$> (Sample.get_unique_layers self).2)).
    2:{ apply Forall2_fmap_r, Forall_Forall2_diag, Forall_forall.
        intros l Hl%list_elem_of_In%unique_handles_in.
        destruct (Hval l Hl) as [-> Hlena]. simpl. by rewrite Hlena. }
    cbn [mbind option_bind].
    rewrite (max_list_const _ M).
    2:{ intros Hnil%fmap_nil_inv. done. }
    2:{ apply Forall_fmap, Forall_forall. done. }
    case_decide; [|lia]. rewrite <-Hlen.
    rewrite (mapM_handles _ _ (value_of <$> (first :: handles'))); [done|].
    apply Forall2_fmap_r, Forall_Forall2_diag, Forall_forall.
    intros h Hh%list_elem_of_In. destruct (Hval h (Hin h Hh)) as [-> Hlena].
    cbn [compose mbind option_bind]. unfold assign_to. by rewrite decide_True.
  - split_and!; simpl.
    + unfold wf_mat. simpl. apply Forall_fmap, Forall_forall.
      intros h Hh%list_elem_of_In. by apply Hval, Hin.
    + unfold nrows. simpl. by rewrite length_fmap.
    + done.
  - intros i h. unfold Sample.get_layer_handle. rewrite Hr.
    cbn [mbind option_bind]. intros Hh. exists (value_of h). split.
    + apply Hval, Hin. by eapply list_elem_of_lookup_2.
    + simpl. by rewrite list_lookup_fmap, Hh.
Qed.

Lemma property_vector_of_arrays_witness :
  ((1 ≤ Sample.get_number_of_layers SampleDemo.outer)%nat ∧ (2 ≤ 2)%nat
   ∧ ∀ l, l ∈ Sample.layers_in SampleDemo.outer →
          ∃ a, Sample.getattr l "spring_const" = Some (Sample.Array a)
               ∧ length a = 2%nat)
  ∧ ∃ prop,
      Sample.get_layer_property_vector SampleDemo.outer "spring_const"
      = Some (A2 prop)
      ∧ layer_aligned (Sample.get_number_of_layers SampleDemo.outer) 2 (A2 prop)
      ∧ ∀ i handle, Sample.get_layer_handle SampleDemo.outer i = Some handle →
          ∃ a, Sample.getattr handle "spring_const" = Some (Sample.Array a)
               ∧ rows prop !! i = Some a.
Proof.
  assert (H : (1 ≤ Sample.get_number_of_layers SampleDemo.outer)%nat
              ∧ (2 ≤ 2)%nat
              ∧ ∀ l, l ∈ Sample.layers_in SampleDemo.outer →
                     ∃ a, Sample.getattr l "spring_const"
                          = Some (Sample.Array a)
                          ∧ length a = 2%nat).
  { split_and!; [vm_compute; lia|lia|]. intros l Hl.
    apply list_elem_of_In in Hl. simpl in Hl.
    destruct Hl as [<-|[<-|[<-|[]]]]; eexists; split; reflexivity. }
  split; [exact H|]. destruct H as (H1 & H2 & H3).
  exact (property_vector_of_arrays SampleDemo.outer "spring_const" 2 H1 H2 H3).
Defined.

(** X18: a structure without layers (no sub-structure, or repetitions of
    zero only) has no property vector: [get_layer_property_vector] raises,
    on [handles[0]]. *)
Theorem no_layers_no_property_vector (self : Sample.Structure)
    (property_name : string) :
  Sample.get_number_of_layers self = 0%nat →
  Sample.get_layer_property_vector self property_name = None.
Proof.
  intros HL.
  destruct (layer_vectors_total self)
    as (indices & ids & handles & Hr & _ & Hlen & _).
  unfold Sample.get_layer_property_vector. rewrite Hr.
  cbn [mbind option_bind]. rewrite HL in Hlen.
  by destruct handles.
Qed.

Lemma no_layers_no_property_vector_witness :
  let self :=
    Sample.MkStructure "empty" 1
      [(Sample.ALayer SampleDemo.layer_A, 0%nat);
       (Sample.AStructure (Sample.init "none"), 3%nat)] None in
  Sample.get_number_of_layers self = 0%nat
  ∧ Sample.get_layer_property_vector self "_thickness" = None.
Proof.
  cbv zeta. split; [reflexivity|].
  apply (no_layers_no_property_vector _ "_thickness"). reflexivity.
Defined.

Section distances.
Import Sample.

Lemma length_cumsum_from start a : length (cumsum_from start a) = length a.
Proof. revert start. induction a; intros; simpl; [done|]. by rewrite IHa. Qed.

Lemma cumsum_from_lookup a start i th :
  a !! i = Some th →
  ∃ s, (start :: cumsum_from start a) !! i = Some s
       ∧ cumsum_from start a !! i = Some (s + th).
Proof.
  revert start i. induction a as [|x a IH]; intros start [|i] Hth; try done.
  - injection Hth as ->. by exists start.
  - simpl in Hth. apply (IH (start + x)), Hth.
Qed.

Lemma cumsum_from_last a start :
  a ≠ [] →
  cumsum_from start a !! (length a - 1)%nat = Some (start + Qcsum a).
Proof.
  revert start. induction a as [|x a IH]; intros start Ha; [done|].
  destruct a as [|y a].
  - simpl. f_equal. unfold Qcsum. simpl. ring.
  - specialize (IH (start + x) ltac:(done)).
    replace (length (x :: y :: a) - 1)%nat
      with (Datatypes.S (length (y :: a) - 1)%nat) by (simpl; lia).
    change (cumsum_from (start + x) (y :: a) !! (length (y :: a) - 1)%nat
            = Some (start + Qcsum (x :: y :: a))).
    rewrite IH. f_equal.
    unfold Qcsum. simpl. ring.
Qed.

End distances.

(** X19: the distances that [get_distances_of_layers] computes from the
    thicknesses of one or more layers: the first layer starts at 0, every
    layer ends its thickness after its start and has its middle half its
    thickness after its start, every further layer starts where the one
    before it ends, and the last layer ends at the sum of all thicknesses. *)
Theorem distances_of_layers_chain (thickness : list Qc) :
  thickness ≠ [] →
  ∃ d_start d_end d_mid,
    Sample.distances_of_layers thickness = Some (d_start, d_end, d_mid)
    ∧ length d_start = length thickness
    ∧ length d_end = length thickness
    ∧ length d_mid = length thickness
    ∧ d_start !! 0%nat = Some 0
    ∧ (∀ i th, thickness !! i = Some th →
         ∃ s, d_start !! i = Some s
              ∧ d_end !! i = Some (s + th)
              ∧ d_mid !! i = Some (s + th / Qc_of_Z 2))
    ∧ (∀ i, (Datatypes.S i < length thickness)%nat →
         d_start !! Datatypes.S i = d_end !! i)
    ∧ d_end !! (length thickness - 1)%nat = Some (Qcsum thickness).
Proof.
  intros Hne.
  assert (HL : (1 ≤ length thickness)%nat).
  { destruct thickness; [done|simpl; lia]. }
  pose proof (length_cumsum_from 0 thickness) as Hend.
  assert (Hstart : length ([0] ++ but_last (Sample.cumsum thickness))
                   = length thickness).
  { unfold but_last, Sample.cumsum. simpl. rewrite length_take, Hend. lia. }
  assert (Hlook : ∀ i, (i < length thickness)%nat →
            ([0] ++ but_last (Sample.cumsum thickness)) !! i
            = (0 :: Sample.cumsum_from 0 thickness) !! i).
  { intros [|i] Hi; [done|]. unfold but_last, Sample.cumsum. simpl.
    apply lookup_take_lt. rewrite Hend. lia. }
  eexists _, _, _. split_and!.
  - unfold Sample.distances_of_layers. cbv zeta.
    rewrite broadcast_same by (by rewrite Hstart, length_fmap).
    cbn [mbind option_bind]. reflexivity.
  - exact Hstart.
  - exact Hend.
  - rewrite length_zip_with, Hstart, length_fmap. lia.
  - done.
  - intros i th Hth.
    destruct (cumsum_from_lookup thickness 0 i th Hth) as (s & Hs & He).
    exists s. rewrite Hlook by (by eapply lookup_lt_Some).
    split_and!; [done|done|].
    rewrite lookup_zip_with, Hlook by (by eapply lookup_lt_Some).
    rewrite Hs, list_lookup_fmap, Hth. done.
  - intros i Hi. by rewrite Hlook.
  - unfold Sample.cumsum. rewrite cumsum_from_last by done.
    f_equal. ring.
Qed.

Lemma distances_of_layers_chain_witness :
  let thickness := vec [2; 3; 5]%Z in
  thickness ≠ []
  ∧ ∃ d_start d_end d_mid,
      Sample.distances_of_layers thickness = Some (d_start, d_end, d_mid)
      ∧ length d_start = length thickness
      ∧ length d_end = length thickness
      ∧ length d_mid = length thickness
      ∧ d_start !! 0%nat = Some 0
      ∧ (∀ i th, thickness !! i = Some th →
           ∃ s, d_start !! i = Some s
                ∧ d_end !! i = Some (s + th)
                ∧ d_mid !! i = Some (s + th / Qc_of_Z 2))
      ∧ (∀ i, (Datatypes.S i < length thickness)%nat →
         d_start !! Datatypes.S i = d_end !! i)
      ∧ d_end !! (length thickness - 1)%nat = Some (Qcsum thickness).
Proof.
  cbv zeta.
  assert (H : vec [2; 3; 5]%Z ≠ []) by (simpl; discriminate).
  split; [exact H|].
  exact (distances_of_layers_chain (vec [2; 3; 5]%Z) H).
Defined.

(** X20: when [add_sub_structure] accepts a layer or a structure with [N]
    repetitions, the structure has [N] layers more for a layer and [N]
    times the layers of the structure for a structure, one sub-structure
    more for a layer and those of the structure for a structure; it takes
    over the number of sub-systems of what was added, which is its own
    number if that was above 1; its name and its substrate stay. *)
Theorem add_sub_structure_counts (self self' : Sample.Structure)
    (sub_structure : Sample.SubStructure) (N : nat) :
  Sample.add_sub_structure self sub_structure N = Some self' →
  Sample.get_number_of_layers self'
  = (Sample.get_number_of_layers self
     + match sub_structure with
       | Sample.ALayer _ => N
       | Sample.AStructure s => Sample.get_number_of_layers s * N
       end)%nat
  ∧ Sample.get_number_of_sub_structures self'
    = (Sample.get_number_of_sub_structures self
       + match sub_structure with
         | Sample.ALayer _ => 1
         | Sample.AStructure s => Sample.get_number_of_sub_structures s
         end)%nat
  ∧ Sample.num_sub_systems self' = Sample.sub_systems_of sub_structure
  ∧ ((1 < Sample.num_sub_systems self)%nat →
     Sample.num_sub_systems self' = Sample.num_sub_systems self)
  ∧ Sample.name self' = Sample.name self
  ∧ Sample.substrate self' = Sample.substrate self.
Proof.
  unfold Sample.add_sub_structure. intros Hadd.
  destruct (match sub_structure with
            | Sample.ALayer _ => false
            | Sample.AStructure s =>
                bool_decide (is_Some (Sample.substrate s))
            end); [done|].
  destruct (bool_decide (1 < Sample.num_sub_systems self)%nat
            && negb (bool_decide (Sample.sub_systems_of sub_structure
                                  = Sample.num_sub_systems self))) eqn:Hcheck;
    [done|].
  injection Hadd as <-. destruct self as [name nss subs sb].
  cbn [Sample.get_number_of_layers Sample.get_number_of_sub_structures
       Sample.sub_structures Sample.num_sub_systems Sample.name
       Sample.substrate] in *.
  rewrite !foldl_app. split_and!; [by destruct sub_structure..|done| |done|done].
  intros Hnss. apply andb_false_iff in Hcheck as [Hc|Hc].
  - apply bool_decide_eq_false in Hc. lia.
  - apply negb_false_iff, bool_decide_eq_true in Hc. done.
Qed.

Lemma add_sub_structure_counts_witness :
  let self' :=
    Sample.MkStructure "outer" 1
      [(Sample.ALayer SampleDemo.layer_A, 2%nat);
       (Sample.AStructure SampleDemo.inner, 2%nat);
       (Sample.AStructure SampleDemo.inner, 5%nat)] None in
  let sub_structure := Sample.AStructure SampleDemo.inner in
  Sample.add_sub_structure SampleDemo.outer sub_structure 5 = Some self'
  ∧ Sample.get_number_of_layers self'
    = (Sample.get_number_of_layers SampleDemo.outer
       + Sample.get_number_of_layers SampleDemo.inner * 5)%nat
  ∧ Sample.get_number_of_sub_structures self'
    = (Sample.get_number_of_sub_structures SampleDemo.outer
       + Sample.get_number_of_sub_structures SampleDemo.inner)%nat
  ∧ Sample.num_sub_systems self' = Sample.sub_systems_of sub_structure
  ∧ ((1 < Sample.num_sub_systems SampleDemo.outer)%nat →
     Sample.num_sub_systems self' = Sample.num_sub_systems SampleDemo.outer)
  ∧ Sample.name self' = Sample.name SampleDemo.outer
  ∧ Sample.substrate self' = Sample.substrate SampleDemo.outer.
Proof.
  cbv zeta.
  assert (H : Sample.add_sub_structure SampleDemo.outer
                (Sample.AStructure SampleDemo.inner) 5
              = Some (Sample.MkStructure "outer" 1
                        [(Sample.ALayer SampleDemo.layer_A, 2%nat);
                         (Sample.AStructure SampleDemo.inner, 2%nat);
                         (Sample.AStructure SampleDemo.inner, 5%nat)] None))
    by reflexivity.
  split; [exact H|].
  exact (add_sub_structure_counts _ _ _ _ H).
Defined.

Section positions.
Import Sample.

(** The loop of [get_all_positions_per_unique_layer] over the unique ids. *)
Lemma positions_fold (F : nat → list nat) (ids : list string) x v :
  NoDup ids →
  foldl (λ (pos : gmap string (list nat)) (il : nat * string),
           <[il.2 := F il.1]> pos) ∅ (imap pair ids) !! x = Some v
  ↔ ∃ i, ids !! i = Some x ∧ v = F i.
Proof.
  induction ids as [|y ids IH] using rev_ind; intros Hnd.
  { simpl. rewrite lookup_empty. split; [done|]. by intros (i & ? & _). }
  apply list.NoDup_app in Hnd as (Hnd & Hy & _).
  rewrite imap_app, foldl_app. simpl. rewrite lookup_insert.
  case_decide as Hxy.
  - subst y. rewrite Nat.add_0_r. split.
    + intros [= <-]. exists (length ids). split; [|done].
      by rewrite lookup_app_r, Nat.sub_diag.
    + intros (i & Hi & ->). f_equal. f_equal.
      apply lookup_app_Some in Hi as [Hi|[Hle Hi]].
      * exfalso. apply (Hy x); [by eapply list_elem_of_lookup_2|by left].
      * apply list_lookup_singleton_Some in Hi as [Hi _]. lia.
  - rewrite (IH Hnd). split; intros (i & Hi & ->); exists i; split; try done.
    + apply lookup_app_Some. by left.
    + apply lookup_app_Some in Hi as [Hi|[_ Hi]]; [done|].
      apply list_lookup_singleton_Some in Hi as [_ ?]. done.
Qed.

Lemma elem_of_flatnonzero_eq indices i j :
  j ∈ flatnonzero_eq indices i ↔ indices !! j = Some i.
Proof.
  unfold flatnonzero_eq. rewrite list_elem_of_filter, elem_of_seq.
  split; [tauto|]. intros Hj. split; [done|].
  apply lookup_lt_Some in Hj. lia.
Qed.

End positions.

(** X21: [get_all_positions_per_unique_layer] never raises; its dictionary
    has an entry for each unique layer id and for nothing else, and the
    entry of an id lists exactly the positions of the structure at which a
    layer with this id stands. *)
Theorem positions_per_unique_layer (self : Sample.Structure) :
  ∃ pos,
    Sample.get_all_positions_per_unique_layer self = Some pos
    ∧ (∀ x, is_Some (pos !! x) ↔ x ∈ (Sample.get_unique_layers self).1)
    ∧ ∀ x js j, pos !! x = Some js →
        (j ∈ js ↔ ∃ handle, Sample.get_layer_handle self j = Some handle
                            ∧ Sample.id handle = x).
Proof.
  destruct (layer_vectors_total self)
    as (indices & ids & handles & Hr & _ & _ & Hids & Hidx & _).
  destruct (unique_layers_inv self) as (Hnd & _ & _).
  unfold Sample.get_all_positions_per_unique_layer, Sample.get_layer_handle.
  cbv zeta. rewrite Hr. cbn [mbind option_bind].
  eexists. split; [reflexivity|]. split.
  - intros x. unfold is_Some. split.
    + intros (js & Hjs). apply positions_fold in Hjs as (i & Hi & _); [|done].
      by eapply list_elem_of_lookup_2.
    + intros (i & Hi)%list_elem_of_lookup_1. eexists.
      apply positions_fold; [done|]. by exists i.
  - intros x js j Hjs. apply positions_fold in Hjs as (i & Hi & ->); [|done].
    rewrite elem_of_flatnonzero_eq. split.
    + intros Hj. destruct (Forall2_lookup_l _ _ _ _ _ Hidx Hj) as (y & Hy & Hiy).
      rewrite Hi in Hiy. injection Hiy as <-. rewrite Hids in Hy.
      apply list_lookup_fmap_Some in Hy as (h & -> & Hh). by exists h.
    + intros (h & Hh & <-).
      assert (Hy : ids !! j = Some (Sample.id h)).
      { by rewrite Hids, list_lookup_fmap, Hh. }
      destruct (Forall2_lookup_r _ _ _ _ _ Hidx Hy) as (i' & Hi' & Hiy).
      by rewrite (NoDup_lookup _ _ _ _ Hnd Hi Hiy).
Qed.
